(** * apps/core/models.py: the core models of the school system

    A shallow embedding of the methods of [apps/core/models.py] that carry
    behaviour: [StatusModel.save], [SoftDeleteModel.delete] and [restore],
    [Notification.mark_as_read], [AcademicSession.save] and
    [SequenceGenerator.get_next_number].

    A model instance is a record; the model's table is a finite map from
    primary keys to rows.  A method is a function from the instance it is
    called on and the world (table, clock, database backend) to a result, the
    instance as the call leaves it, and the world as the call leaves it: an
    exception does not undo the assignments made to [self] before it. *)

From Stdlib Require Import ZArith String Ascii List Lia.
From Stdlib Require Import DecimalString DecimalPos DecimalZ.
From stdpp Require Import base option list gmap strings.

Local Open Scope Z_scope.

(** ** Values *)

(** [datetime.datetime], by its attributes. *)
Record datetime := mk_datetime {
  year : Z; month : Z; day : Z;
  hour : Z; minute : Z; second : Z; microsecond : Z
}.

(** [datetime.date]. *)
Record date := mk_date { d_year : Z; d_month : Z; d_day : Z }.

(** A UUID is a 128-bit number; [UUIDField(primary_key=True,
    default=uuid.uuid4)] gives every instance one at construction, so
    [self.pk] is always set (and truthy). *)
Definition uuid := N.

(** [StatusModel.Status]. *)
Inductive Status := ACTIVE | INACTIVE | PENDING | SUSPENDED | ARCHIVED.

Definition Status_eqb (a b : Status) : bool :=
  match a, b with
  | ACTIVE, ACTIVE | INACTIVE, INACTIVE | PENDING, PENDING
  | SUSPENDED, SUSPENDED | ARCHIVED, ARCHIVED => true
  | _, _ => false
  end.

(** ** Exceptions and results *)

Inductive error :=
| DoesNotExist                  (* Model.DoesNotExist, raised by objects.get *)
| MultipleObjectsReturned
| IntegrityError                (* an INSERT under a primary key that is stored *)
| DatabaseError (msg : string). (* any other failure of the persistence layer *)

Inductive result (R : Type) :=
| Ok (r : R)
| Raise (e : error).
Arguments Ok {R} r.
Arguments Raise {R} e.

(** ** The fields every concrete model inherits

    [CoreBaseModel(TimeStampedModel, UUIDModel, StatusModel,
    SoftDeleteModel)]; [adding] is [self._state.adding]. *)
Record CoreBase := mk_CoreBase {
  created_at : option datetime;
  updated_at : option datetime;
  id : uuid;
  status : Status;
  status_changed_at : option datetime;
  is_deleted : bool;
  deleted_at : option datetime;
  adding : bool
}.

Definition set_created_at v (c : CoreBase) :=
  mk_CoreBase v (updated_at c) (id c) (status c) (status_changed_at c)
              (is_deleted c) (deleted_at c) (adding c).
Definition set_updated_at v (c : CoreBase) :=
  mk_CoreBase (created_at c) v (id c) (status c) (status_changed_at c)
              (is_deleted c) (deleted_at c) (adding c).
Definition set_status_changed_at v (c : CoreBase) :=
  mk_CoreBase (created_at c) (updated_at c) (id c) (status c) v
              (is_deleted c) (deleted_at c) (adding c).
Definition set_is_deleted v (c : CoreBase) :=
  mk_CoreBase (created_at c) (updated_at c) (id c) (status c)
              (status_changed_at c) v (deleted_at c) (adding c).
Definition set_deleted_at v (c : CoreBase) :=
  mk_CoreBase (created_at c) (updated_at c) (id c) (status c)
              (status_changed_at c) (is_deleted c) v (adding c).
Definition set_adding v (c : CoreBase) :=
  mk_CoreBase (created_at c) (updated_at c) (id c) (status c)
              (status_changed_at c) (is_deleted c) (deleted_at c) v.

(** A concrete model: a record that carries the inherited fields. *)
Class Model (A : Type) := {
  core : A → CoreBase;
  with_core : CoreBase → A → A;
  core_with_core : ∀ c a, core (with_core c a) = c;
  with_core_core : ∀ a, with_core (core a) a = a;
  with_core_with_core : ∀ c c' a, with_core c (with_core c' a) = with_core c a
}.

(** ** The world a method runs in *)

(** [objects] is the model's table.  [clock] holds the successive readings
    of [timezone.now()], [reads] counts the readings taken so far.
    [backend] is what the database will answer to the queries to come, in
    order: [None] serves the query, [Some e] makes it raise [e]; past the end
    of the list every query is served. *)
Record World (A : Type) := mk_World {
  objects : gmap uuid A;
  clock : nat → datetime;
  reads : nat;
  backend : list (option error)
}.
Arguments mk_World {A}.
Arguments objects {A}.
Arguments clock {A}.
Arguments reads {A}.
Arguments backend {A}.

Definition set_objects {A} (t : gmap uuid A) (w : World A) : World A :=
  mk_World t (clock w) (reads w) (backend w).

(** A method: from ([self], world) to result, [self] and world after. *)
Definition M (A R : Type) : Type := A * World A → result R * (A * World A).

Definition ret {A R} (r : R) : M A R := λ st, (Ok r, st).
Definition bind {A R R'} (m : M A R) (k : R → M A R') : M A R' :=
  λ st, match m st with
        | (Ok r, st') => k r st'
        | (Raise e, st') => (Raise e, st')
        end.

Declare Scope method_scope.
Delimit Scope method_scope with M.
Notation "'do' x <- m ; k" := (bind m (λ x, k))
  (at level 10, x name, m at level 100, k at level 200) : method_scope.
Local Open Scope method_scope.

Section Methods.
Context {A : Type} `{Model A}.

Definition get_self : M A A := λ st, (Ok st.1, st).
Definition modify_self (f : A → A) : M A unit := λ st, (Ok tt, (f st.1, st.2)).
Definition modify_core (f : CoreBase → CoreBase) : M A unit :=
  modify_self (λ s, with_core (f (core s)) s).

(** [timezone.now()] *)
Definition timezone_now : M A datetime :=
  λ st, (Ok (clock st.2 (reads st.2)),
         (st.1, mk_World (objects st.2) (clock st.2) (S (reads st.2)) (backend st.2))).

(** One round trip to the database. *)
Definition execute : M A unit :=
  λ st, match backend st.2 with
        | [] => (Ok tt, st)
        | o :: rest =>
            let st' := (st.1, mk_World (objects st.2) (clock st.2) (reads st.2) rest) in
            match o with
            | None => (Ok tt, st')
            | Some e => (Raise e, st')
            end
        end.

(** [cls.objects.get(pk=pk)] *)
Definition objects_get (pk : uuid) : M A A :=
  do _ <- execute ;
  λ st, match objects st.2 !! pk with
        | Some row => (Ok row, st)
        | None => (Raise DoesNotExist, st)
        end.

(** [cls.objects.filter(p).update(f)]: one UPDATE over the rows that
    satisfy [p]; instances in memory are not touched. *)
Definition objects_filter_update (p : A → bool) (f : A → A) : M A unit :=
  do _ <- execute ;
  λ st, (Ok tt, (st.1, set_objects ((λ r, if p r then f r else r) <$> objects st.2) st.2)).

(** The instance is written under its primary key. *)
Definition write_row : M A unit :=
  λ st, (Ok tt, (st.1, set_objects (<[id (core st.1) := st.1]> (objects st.2)) st.2)).

(** The INSERT of [models.Model.save].  The fields declared [auto_now_add]
    and [auto_now] are assigned on the instance in the order of the fields
    ([created_at], [updated_at], [status_changed_at]), each from a reading of
    the clock of its own; then the query runs.  It raises [IntegrityError]
    when a row is stored under the primary key; otherwise the row is written
    and [_state.adding] is cleared. *)
Definition Model_insert : M A unit :=
  do t <- timezone_now ;
  do _ <- modify_core (set_created_at (Some t)) ;
  do t <- timezone_now ;
  do _ <- modify_core (set_updated_at (Some t)) ;
  do t <- timezone_now ;
  do _ <- modify_core (set_status_changed_at (Some t)) ;
  do _ <- execute ;
  do self <- get_self ;
  λ st, match objects st.2 !! id (core self) with
        | Some _ => (Raise IntegrityError, st)
        | None => (do _ <- modify_core (set_adding false) ; write_row) st
        end.

(** [models.Model.save], the framework's save that every [save] of the file
    ends in.  An instance that is new ([_state.adding]) has a primary key
    with a default, so the save is an INSERT.  For an instance that is not
    new, [updated_at] ([auto_now]) is assigned and an UPDATE of the row of
    the primary key runs; when no row is stored under it, the save falls
    back on the INSERT.  A query that raises leaves the table as it was and
    the instance with the fields assigned so far. *)
Definition Model_save : M A unit :=
  do self <- get_self ;
  if adding (core self) then Model_insert
  else
    do t <- timezone_now ;
    do _ <- modify_core (set_updated_at (Some t)) ;
    do _ <- execute ;
    λ st, match objects st.2 !! id (core self) with
          | Some _ => write_row st
          | None => Model_insert st
          end.

(** [StatusModel.save] *)
Definition StatusModel_save : M A unit :=
  do self <- get_self ;
  do _ <- (if negb (adding (core self)) then
             do original <- objects_get (id (core self)) ;
             if negb (Status_eqb (status (core original)) (status (core self))) then
               do t <- timezone_now ;
               modify_core (set_status_changed_at (Some t))
             else ret tt
           else ret tt) ;
  Model_save.

(** [SoftDeleteModel.delete] and [SoftDeleteModel.restore].  [self.save()]
    is resolved on the class of the instance, so [save] is a parameter:
    [StatusModel_save] for every concrete model but [AcademicSession],
    which overrides it. *)
Definition delete (save : M A unit) : M A unit :=
  do _ <- modify_core (set_is_deleted true) ;
  do t <- timezone_now ;
  do _ <- modify_core (set_deleted_at (Some t)) ;
  save.


End Methods.

(** The inherited fields that no [save] assigns. *)
Definition kept (c c' : CoreBase) : Prop :=
  id c' = id c ∧ status c' = status c ∧
  is_deleted c' = is_deleted c ∧ deleted_at c' = deleted_at c.

(** What [delete] and [restore] rely on, whichever [save] the class of the
    instance resolves to: a save assigns neither [is_deleted] nor
    [deleted_at], removes no row, and when it returns the instance is stored
    under its primary key. *)
Class SaveContract {A : Type} `{Model A} (save : M A unit) : Prop := {
  save_kept : ∀ s w, kept (core s) (core (save (s, w)).2.1);
  save_keeps_rows : ∀ s w k,
    is_Some (objects w !! k) → is_Some (objects (save (s, w)).2.2 !! k);
  save_stores : ∀ s w,
    (save (s, w)).1 = Ok tt →
    objects (save (s, w)).2.2 !! id (core s) = Some (save (s, w)).2.1
}.

(** ** Strings of integers *)

(** [str(n)] for a Python [int]. *)
Definition str_int (n : Z) : string := NilZero.string_of_int (Z.to_int n).

(** [int(s)] on a decimal literal with an optional minus sign; leading zeros
    are accepted. *)
Definition int_str (s : string) : option Z :=
  Z.of_int <$> NilZero.int_of_string s.

(** ['0' * k] *)
Fixpoint zeros (k : nat) : string :=
  match k with
  | O => EmptyString
  | S k => String "0" (zeros k)
  end.

(** [s.zfill(width)]: the string is returned as it is when it is at least
    [width] long; the zeros go after a leading sign. *)
Definition zfill (s : string) (width : Z) : string :=
  let len := Z.of_nat (String.length s) in
  if width <=? len then s
  else
    let fill := zeros (Z.to_nat (width - len)) in
    match s with
    | String c rest =>
        if (Ascii.eqb c "+" || Ascii.eqb c "-")%bool
        then String c (fill +:+ rest)
        else fill +:+ s
    | EmptyString => fill
    end.

(** ** SequenceGenerator *)

Inductive SequenceType :=
| STUDENT_ID | EMPLOYEE_ID | INVOICE | RECEIPT | LIBRARY_BOOK | TRANSPORT_BUS.

Inductive ResetFrequency := never | yearly | monthly | daily.

Record SequenceGenerator := mk_SequenceGenerator {
  sg_core : CoreBase;
  sequence_type : SequenceType;
  prefix : string;
  suffix : string;
  last_number : Z;
  padding : Z;
  reset_frequency : ResetFrequency
}.

#[export] Program Instance SequenceGenerator_Model : Model SequenceGenerator := {|
  core := sg_core;
  with_core c g :=
    mk_SequenceGenerator c (sequence_type g) (prefix g) (suffix g)
                         (last_number g) (padding g) (reset_frequency g)
|}.
Next Obligation. reflexivity. Qed.
Next Obligation. by intros []. Qed.
Next Obligation. reflexivity. Qed.

Definition set_last_number (n : Z) (g : SequenceGenerator) : SequenceGenerator :=
  mk_SequenceGenerator (sg_core g) (sequence_type g) (prefix g) (suffix g)
                       n (padding g) (reset_frequency g).

(** The f-string of [get_next_number], on the fields it reads. *)
Definition format_number (g : SequenceGenerator) : string :=
  prefix g +:+ zfill (str_int (last_number g)) (padding g) +:+ suffix g.

(** [SequenceGenerator.get_next_number] *)
Definition get_next_number : M SequenceGenerator string :=
  do _ <- modify_self (λ g, set_last_number (last_number g + 1) g) ;
  do _ <- StatusModel_save ;
  do self <- get_self ;
  let number_str := zfill (str_int (last_number self)) (padding self) in
  ret (prefix self +:+ number_str +:+ suffix self).

(** [SequenceGenerator.__str__] reads [last_number]; the sequence type is
    rendered by its value. *)
Definition SequenceType_value (k : SequenceType) : string :=
  match k with
  | STUDENT_ID => "student_id"
  | EMPLOYEE_ID => "employee_id"
  | INVOICE => "invoice"
  | RECEIPT => "receipt"
  | LIBRARY_BOOK => "library_book"
  | TRANSPORT_BUS => "transport_bus"
  end.

Definition SequenceGenerator_str : M SequenceGenerator string :=
  do self <- get_self ;
  ret (SequenceType_value (sequence_type self) +:+ " - Last: " +:+ str_int (last_number self)).

(** Reading the attribute [self.last_number]. *)
Definition read_last_number : M SequenceGenerator Z :=
  do self <- get_self ;
  ret (last_number self).

(** A run of calls of [get_next_number] on one instance.  Each call finds
    the world in some state of its own: what other actors did to the table,
    the clock and the backend between two calls is not constrained.  Every
    call is recorded with the instance as it leaves it. *)
Fixpoint calls (g : SequenceGenerator) (ws : list (World SequenceGenerator))
  : list (result string * SequenceGenerator) :=
  match ws with
  | [] => []
  | w :: ws =>
      let out := get_next_number (g, w) in
      (out.1, out.2.1) :: calls out.2.1 ws
  end.

#[global] Instance SequenceType_eq_dec : EqDecision SequenceType.
Proof. solve_decision. Defined.

(** [n] calls in a row on one instance, in a world that nobody else
    touches; the first exception ends the run. *)
Fixpoint next_numbers (n : nat) : M SequenceGenerator (list string) :=
  match n with
  | O => ret []
  | S n =>
      do r <- get_next_number ;
      do rs <- next_numbers n ;
      ret (r :: rs)
  end.

(** Modelled from the spec: the rows of the table whose [sequence_type] is
    [kind], as [objects.filter(sequence_type=kind)] selects them (the field
    is declared [unique], so the spec has one row per kind). *)
Definition rows_of_kind (kind : SequenceType) (t : gmap uuid SequenceGenerator)
  : list (uuid * SequenceGenerator) :=
  map_to_list (filter (λ kv, sequence_type kv.2 = kind) t).

(** Modelled from the spec: [allocate(kind)], the entry point that finds the
    counter of a kind and allocates on it.  The source has only the instance
    method [get_next_number] and leaves the lookup to its callers; the spec
    says that [kind] must name an existing counter and that the call fails
    with NotFoundError otherwise, which is [DoesNotExist] here; it gives the
    lookup no other failure.  A fresh instance is loaded from the row and
    [get_next_number] is called on it. *)
Definition allocate (kind : SequenceType) (w : World SequenceGenerator)
  : result string * World SequenceGenerator :=
  match rows_of_kind kind (objects w) with
  | [] => (Raise DoesNotExist, w)
  | [(_, row)] => let out := get_next_number (row, w) in (out.1, out.2.2)
  | _ => (Raise MultipleObjectsReturned, w)
  end.

(** Every row is stored under its own primary key. *)
Definition keyed (t : gmap uuid SequenceGenerator) : Prop :=
  ∀ k row, t !! k = Some row → id (core row) = k.

(** ** Notification *)

Inductive NotificationType := INFO | SUCCESS | WARNING | ERROR | ALERT.
Inductive Priority := LOW | MEDIUM | HIGH | URGENT.

Record Notification := mk_Notification {
  n_core : CoreBase;
  user : N;                       (* foreign key to the user model *)
  title : string;
  message : string;
  notification_type : NotificationType;
  priority : Priority;
  is_read : bool;
  read_at : option datetime;
  action_url : string;
  related_model : string;
  related_object_id : string;
  expires_at : option datetime
}.

#[export] Program Instance Notification_Model : Model Notification := {|
  core := n_core;
  with_core c n :=
    mk_Notification c (user n) (title n) (message n) (notification_type n)
                    (priority n) (is_read n) (read_at n) (action_url n)
                    (related_model n) (related_object_id n) (expires_at n)
|}.
Next Obligation. reflexivity. Qed.
Next Obligation. by intros []. Qed.
Next Obligation. reflexivity. Qed.

Definition set_is_read (v : bool) (n : Notification) : Notification :=
  mk_Notification (n_core n) (user n) (title n) (message n) (notification_type n)
                  (priority n) v (read_at n) (action_url n)
                  (related_model n) (related_object_id n) (expires_at n).
Definition set_read_at (v : option datetime) (n : Notification) : Notification :=
  mk_Notification (n_core n) (user n) (title n) (message n) (notification_type n)
                  (priority n) (is_read n) v (action_url n)
                  (related_model n) (related_object_id n) (expires_at n).

(** [Notification.mark_as_read] *)
Definition mark_as_read : M Notification unit :=
  do _ <- modify_self (set_is_read true) ;
  do t <- timezone_now ;
  do _ <- modify_self (set_read_at (Some t)) ;
  StatusModel_save.

(** ** AcademicSession *)

Record AcademicSession := mk_AcademicSession {
  a_core : CoreBase;
  name : string;
  number_of_semesters : Z;
  term_number : option Z;
  start_date : date;
  end_date : date;
  is_current : bool
}.

#[export] Program Instance AcademicSession_Model : Model AcademicSession := {|
  core := a_core;
  with_core c a :=
    mk_AcademicSession c (name a) (number_of_semesters a) (term_number a)
                       (start_date a) (end_date a) (is_current a)
|}.
Next Obligation. reflexivity. Qed.
Next Obligation. by intros []. Qed.
Next Obligation. reflexivity. Qed.

Definition set_is_current (v : bool) (a : AcademicSession) : AcademicSession :=
  mk_AcademicSession (a_core a) (name a) (number_of_semesters a) (term_number a)
                     (start_date a) (end_date a) v.

(** [AcademicSession.save]; [super().save()] is [StatusModel.save]. *)
Definition AcademicSession_save : M AcademicSession unit :=
  do self <- get_self ;
  do _ <- (if is_current self
           then objects_filter_update is_current (set_is_current false)
           else ret tt) ;
  StatusModel_save.

(** The table after [filter(is_current=True).update(is_current=False)]. *)
Definition cleared (t : gmap uuid AcademicSession) : gmap uuid AcademicSession :=
  (λ r, if is_current r then set_is_current false r else r) <$> t.

(** At most one stored session is current. *)
Definition at_most_one_current (t : gmap uuid AcademicSession) : Prop :=
  ∀ k1 k2 r1 r2,
    t !! k1 = Some r1 → t !! k2 = Some r2 →
    is_current r1 = true → is_current r2 = true → k1 = k2.

(** Saves of sessions one after the other. *)
Fixpoint saves (ss : list AcademicSession) (w : World AcademicSession)
  : World AcademicSession :=
  match ss with
  | [] => w
  | s :: ss => saves ss (AcademicSession_save (s, w)).2.2
  end.

(** ** Queries that are served *)

(** The backend serves the next query. *)
Definition serves {A} (w : World A) : bool :=
  match backend w with
  | Some _ :: _ => false
  | _ => true
  end.

(** [instance.refresh_from_db()]: the instance is loaded again from the row
    of its primary key. *)
Definition refresh_from_db {A} `{Model A} : M A unit :=
  do self <- get_self ;
  do row <- objects_get (id (core self)) ;
  modify_self (λ _, row).

(** [s.split()]: the words of a string, separated by white space. *)
Definition split (str : string) : list string := String.words str.

(** Every row of a model's table is stored under its own primary key. *)
Definition pk_keyed {A} `{Model A} (t : gmap uuid A) : Prop :=
  ∀ k row, t !! k = Some row → id (core row) = k.

(** ** AddressModel *)

Record AddressModel := mk_AddressModel {
  address_line_1 : string;
  address_line_2 : string;
  city : string;
  state : string;
  postal_code : string;
  country : string
}.

(** [sep.join(parts)] *)
Fixpoint join (sep : string) (parts : list string) : string :=
  match parts with
  | [] => ""
  | p :: ps =>
      match ps with
      | [] => p
      | _ => p +:+ sep +:+ join sep ps
      end
  end.

(** [filter(None, parts)]: the strings that are truthy, that is, not
    empty. *)
Definition truthy (parts : list string) : list string :=
  filter (λ p : string, p ≠ "") parts.

(** The characters of the parts, all together. *)
Fixpoint total_length (ps : list string) : nat :=
  match ps with
  | [] => 0
  | p :: ps => String.length p + total_length ps
  end.

(** [AddressModel.full_address] *)
Definition full_address (a : AddressModel) : string :=
  let parts := [address_line_1 a; address_line_2 a; city a; state a;
                postal_code a; country a] in
  join ", " (truthy parts).

(** ** FileAttachment *)

Inductive FileType :=
| DOCUMENT | IMAGE | PDF | SPREADSHEET | PRESENTATION | ARCHIVE | OTHER.

Record FileAttachment := mk_FileAttachment {
  fa_core : CoreBase;
  fa_name : string;
  fa_file : string;                 (* the stored path of the file *)
  fa_file_type : FileType;
  fa_mime_type : string;
  fa_size : Z;
  fa_description : string;
  fa_uploaded_by : option N;
  fa_related_model : string;
  fa_related_object_id : string
}.

(** The integer nearest to [n / d], ties to the even one ([0 ≤ n], [0 < d]). *)
Definition round_half_even (n d : Z) : Z :=
  let q := n / d in
  let r := n mod d in
  if ((d <? 2 * r) || ((2 * r =? d) && Z.odd q))%bool then q + 1 else q.

(** The number of tenths that [f"{n / d:.1f}"] shows.  For [0 ≤ n < 2^53]
    and [d] a power of two the quotient [n / d] is exact in binary floating
    point, and the conversion to one decimal is correctly rounded, ties to
    even; the sizes below one GiB, and every size a [PositiveIntegerField]
    holds, are in that range. *)
Definition tenths (n d : Z) : Z := round_half_even (10 * n) d.

(** [f"{n / d:.1f}"], in the same range. *)
Definition format_1f (n d : Z) : string :=
  str_int (tenths n d / 10) +:+ "." +:+ str_int (tenths n d mod 10).

(** [FileAttachment.file_size_human] *)
Definition file_size_human (f : FileAttachment) : string :=
  let size := fa_size f in
  if size <? 1024 then str_int size +:+ " B"
  else if size <? 1024 * 1024 then format_1f size 1024 +:+ " KB"
  else if size <? 1024 * 1024 * 1024 then format_1f size (1024 * 1024) +:+ " MB"
  else format_1f size (1024 * 1024 * 1024) +:+ " GB".

(** ** AcademicSession: validation and display *)

(** Dates compare as their (year, month, day) triples. *)
Definition date_ltb (a b : date) : bool :=
  (d_year a <? d_year b)
  || ((d_year a =? d_year b)
      && ((d_month a <? d_month b)
          || ((d_month a =? d_month b) && (d_day a <? d_day b)))).

Definition date_leb (a b : date) : bool :=
  (d_year a <? d_year b)
  || ((d_year a =? d_year b)
      && ((d_month a <? d_month b)
          || ((d_month a =? d_month b) && (d_day a <=? d_day b)))).

(** What [clean] does: it returns, or raises [ValidationError] with a
    message. *)
Inductive validation :=
| Valid
| ValidationError (msg : string).

(** [AcademicSession.clean] *)
Definition clean (s : AcademicSession) : validation :=
  if date_leb (end_date s) (start_date s) then
    ValidationError "End date must be after start date."
  else
    match term_number s with
    | Some t =>
        if number_of_semesters s <? t then
          ValidationError
            "Term number cannot exceed the number of semesters configured for this session."
        else Valid
    | None => Valid
    end.

(** The two [CheckConstraint]s of [AcademicSession.Meta]:
    [Q(end_date__gt=F('start_date'))] and
    [Q(term_number__isnull=True) | Q(term_number__lte=F('number_of_semesters'))]. *)
Definition end_date_after_start_date (s : AcademicSession) : bool :=
  date_ltb (start_date s) (end_date s).

Definition term_number_within_semesters_range (s : AcademicSession) : bool :=
  match term_number s with
  | None => true
  | Some t => t <=? number_of_semesters s
  end.

(** [AcademicSession.semester_name]; the translatable messages are given by
    their source text. *)
Definition semester_name (s : AcademicSession) : string :=
  match term_number s with
  | Some 1 => "First Semester"
  | Some 2 => "Second Semester"
  | Some 3 => "Third Semester"
  | _ => "Full Session"
  end.

(** ** Sample data *)

Definition t0 : datetime := mk_datetime 2024 3 1 8 0 0 0.
Definition fresh_core (k : uuid) : CoreBase :=
  mk_CoreBase None None k ACTIVE None false None true.
Definition stored_core (k : uuid) (t : datetime) : CoreBase :=
  mk_CoreBase (Some t) (Some t) k ACTIVE (Some t) false None false.

(** An empty table, a clock that stands at [t0], a backend that serves. *)
Definition w0 {A} : World A := mk_World ∅ (λ _, t0) 0 [].

(** A backend whose next query fails. *)
Definition w_down {A} : World A :=
  mk_World ∅ (λ _, t0) 0 [Some (DatabaseError "connection lost")].

Definition g_fresh : SequenceGenerator :=
  mk_SequenceGenerator (fresh_core 7%N) STUDENT_ID "" "" 0 6 never.
Definition g_stu0 : SequenceGenerator :=
  mk_SequenceGenerator (fresh_core 7%N) STUDENT_ID "STU-" "" 0 4 never.
Definition g_stu : SequenceGenerator :=
  mk_SequenceGenerator (fresh_core 7%N) STUDENT_ID "STU-" "" 5 4 never.

(** A yearly counter that was last saved in 2023, called in 2024. *)
Definition t_2023 : datetime := mk_datetime 2023 11 20 9 30 0 0.
Definition t_2024 : datetime := mk_datetime 2024 1 8 10 0 0 0.
Definition g_yearly : SequenceGenerator :=
  mk_SequenceGenerator (stored_core 9%N t_2023) INVOICE "" "" 120 6 yearly.
Definition w_2024 : World SequenceGenerator :=
  mk_World {[ 9%N := g_yearly ]} (λ _, t_2024) 0 [].

(** The same table, with a backend that serves the read of the row and
    fails the write. *)
Definition w_2024_down : World SequenceGenerator :=
  mk_World {[ 9%N := g_yearly ]} (λ _, t_2024) 0
           [None; Some (DatabaseError "connection lost")].

Definition n0 : Notification :=
  mk_Notification (fresh_core 3%N) 1%N "Test Notification" "This is a test"
                  INFO MEDIUM false None "" "" "" None.

Definition s0 : AcademicSession :=
  mk_AcademicSession (fresh_core 11%N) "2024/2025" 2 (Some 1)
                     (mk_date 2024 9 1) (mk_date 2025 6 30) true.
Definition s1 : AcademicSession :=
  mk_AcademicSession (stored_core 12%N t_2023) "2023/2024" 2 None
                     (mk_date 2023 9 1) (mk_date 2024 6 30) true.
Definition w_sessions : World AcademicSession :=
  mk_World {[ 12%N := s1 ]} (λ _, t_2024) 0 [].

(** A stored notification whose row holds another status. *)
Definition n_stored : Notification :=
  mk_Notification (stored_core 3%N t_2023) 1%N "Test Notification" "This is a test"
                  INFO MEDIUM false None "" "" "" None.
Definition n_archived : Notification :=
  mk_Notification
    (mk_CoreBase (Some t_2023) (Some t_2023) 3%N ARCHIVED (Some t_2023) false None false)
    1%N "Test Notification" "This is a test" INFO MEDIUM false None "" "" "" None.
Definition w_notes : World Notification :=
  mk_World {[ 3%N := n_stored ]} (λ _, t_2024) 0 [].
Definition n_other : Notification :=
  mk_Notification (stored_core 4%N t_2023) 2%N "Fees due" "Second notice"
                  WARNING HIGH false None "" "" "" None.
Definition w_two_notes : World Notification :=
  mk_World {[ 3%N := n_stored; 4%N := n_other ]} (λ _, t_2024) 0 [].

(** A backend that serves one query and fails the next. *)
Definition w_sessions_half : World AcademicSession :=
  mk_World {[ 12%N := s1 ]} (λ _, t_2024) 0
           [None; Some (DatabaseError "connection lost")].

Definition s_plain : AcademicSession :=
  mk_AcademicSession (fresh_core 13%N) "2025/2026" 3 (Some 2)
                     (mk_date 2025 9 1) (mk_date 2026 6 30) false.

Definition addr0 : AddressModel :=
  mk_AddressModel "12 Main St" "" "Lagos" "" "100001" "Nigeria".

Definition fa0 : FileAttachment :=
  mk_FileAttachment (fresh_core 21%N) "hello.txt" "attachments/2024/03/01/hello.txt"
                    DOCUMENT "text/plain" 11 "" (Some 1%N) "" "".
Definition fa_with_size (n : Z) : FileAttachment :=
  mk_FileAttachment (fresh_core 21%N) "hello.txt" "attachments/2024/03/01/hello.txt"
                    DOCUMENT "text/plain" n "" (Some 1%N) "" "".

(** * Properties *)

(** ** Decimal strings *)

Section Decimal.
Import Decimal.

Lemma string_app_cons c (a b : string) : String c a +:+ b = String c (a +:+ b).
Proof. reflexivity. Qed.

Lemma string_length_app (a b : string) :
  String.length (a +:+ b) = (String.length a + String.length b)%nat.
Proof. induction a; [reflexivity | simpl; congruence]. Qed.

Lemma string_app_inv_tail (a b c : string) : a +:+ c = b +:+ c → a = b.
Proof.
  revert b. induction a as [|x a IH]; intros [|y b] Heq.
  - reflexivity.
  - apply (f_equal String.length) in Heq.
    rewrite !string_length_app in Heq. simpl in Heq. lia.
  - apply (f_equal String.length) in Heq.
    rewrite !string_length_app in Heq. simpl in Heq. lia.
  - simpl in Heq. injection Heq as -> Heq. f_equal. by apply IH.
Qed.

Lemma zeros_string_of_uint k d :
  zeros k +:+ NilEmpty.string_of_uint d = NilEmpty.string_of_uint (Nat.iter k D0 d).
Proof.
  induction k; [reflexivity|].
  simpl zeros. rewrite string_app_cons, IHk. reflexivity.
Qed.

Lemma iter_D0_nonnil k d : d ≠ Nil → Nat.iter k D0 d ≠ Nil.
Proof. destruct k; simpl; [done | discriminate]. Qed.

Lemma Z_of_uint_leading_zeros k d : Z.of_uint (Nat.iter k D0 d) = Z.of_uint d.
Proof. induction k; simpl; [done | exact IHk]. Qed.

(** A numeral that is not empty is written with a digit first. *)
Lemma string_of_uint_head d :
  d ≠ Nil →
  ∃ c rest, NilEmpty.string_of_uint d = String c rest ∧
            (Ascii.eqb c "+" || Ascii.eqb c "-")%bool = false.
Proof. destruct d; [done | ..]; intros _; simpl; eauto. Qed.

Lemma zfill_unsigned d w :
  d ≠ Nil →
  ∃ k, zfill (NilEmpty.string_of_uint d) w = NilEmpty.string_of_uint (Nat.iter k D0 d).
Proof.
  intros Hd. unfold zfill. case_match.
  - by exists 0%nat.
  - destruct (string_of_uint_head d Hd) as (c & rest & Hs & Hc).
    rewrite Hs, Hc, <- Hs. eexists. apply zeros_string_of_uint.
Qed.

Lemma zfill_negative d w :
  ∃ k, zfill (String "-" (NilEmpty.string_of_uint d)) w
       = String "-" (NilEmpty.string_of_uint (Nat.iter k D0 d)).
Proof.
  unfold zfill. case_match.
  - by exists 0%nat.
  - simpl. eexists. f_equal. apply zeros_string_of_uint.
Qed.

Lemma NilZero_string_of_uint_nonnil d :
  d ≠ Nil → NilZero.string_of_uint d = NilEmpty.string_of_uint d.
Proof. by destruct d. Qed.

(** The zero-padded numeral is a numeral of the same number. *)
Lemma zfill_str_int (n w : Z) :
  ∃ d, zfill (str_int n) w = NilZero.string_of_int d ∧
       d ≠ Pos Nil ∧ d ≠ Neg Nil ∧ Z.of_int d = n.
Proof.
  unfold str_int. destruct n as [|p|p]; simpl Z.to_int.
  - destruct (zfill_unsigned (D0 Nil) w) as [k Hk]; [done|].
    exists (Pos (Nat.iter k D0 (D0 Nil))). simpl NilZero.string_of_int.
    rewrite NilZero_string_of_uint_nonnil by by apply iter_D0_nonnil.
    split; [exact Hk|]. split; [|split].
    + intros [= E]. by apply (iter_D0_nonnil k (D0 Nil)).
    + discriminate.
    + simpl. by rewrite Z_of_uint_leading_zeros.
  - pose proof (DecimalPos.Unsigned.to_uint_nonnil p) as Hp.
    destruct (zfill_unsigned (Pos.to_uint p) w) as [k Hk]; [done|].
    exists (Pos (Nat.iter k D0 (Pos.to_uint p))). simpl NilZero.string_of_int.
    rewrite !NilZero_string_of_uint_nonnil by (by try apply iter_D0_nonnil).
    split; [exact Hk|]. split; [|split].
    + intros [= E]. by apply (iter_D0_nonnil k (Pos.to_uint p)).
    + discriminate.
    + simpl. rewrite Z_of_uint_leading_zeros.
      exact (DecimalZ.of_to (Z.pos p)).
  - pose proof (DecimalPos.Unsigned.to_uint_nonnil p) as Hp.
    destruct (zfill_negative (Pos.to_uint p) w) as [k Hk].
    exists (Neg (Nat.iter k D0 (Pos.to_uint p))). simpl NilZero.string_of_int.
    rewrite !NilZero_string_of_uint_nonnil by (by try apply iter_D0_nonnil).
    split; [exact Hk|]. split; [|split].
    + discriminate.
    + intros [= E]. by apply (iter_D0_nonnil k (Pos.to_uint p)).
    + simpl. rewrite Z_of_uint_leading_zeros.
      exact (DecimalZ.of_to (Z.neg p)).
Qed.

(** Reading the zero-padded numeral gives the number back. *)
Lemma int_str_zfill (n w : Z) : int_str (zfill (str_int n) w) = Some n.
Proof.
  destruct (zfill_str_int n w) as (d & -> & Hp & Hn & Hd).
  unfold int_str. rewrite NilZero.isi by assumption. simpl. by rewrite Hd.
Qed.

Lemma zfill_str_int_inj (a b w : Z) :
  zfill (str_int a) w = zfill (str_int b) w → a = b.
Proof.
  intros Heq. pose proof (int_str_zfill a w) as Ha.
  rewrite Heq, int_str_zfill in Ha. congruence.
Qed.

End Decimal.

(** ** What a save does *)

Lemma kept_refl c : kept c c.
Proof. by repeat split. Qed.

Section SaveFacts.
Context {A : Type} `{Model A}.

Lemma execute_cases (s : A) (w : World A) :
  ∃ b, (execute (s, w) = (Ok tt, (s, mk_World (objects w) (clock w) (reads w) b))
        ∨ ∃ e, execute (s, w) = (Raise e, (s, mk_World (objects w) (clock w) (reads w) b))).
Proof.
  unfold execute; simpl. destruct w as [t c n [|[e|] b]]; simpl; eauto.
Qed.

Lemma Model_insert_spec (s s' : A) (w w' : World A) r :
  Model_insert (s, w) = (r, (s', w')) →
  s' = with_core (core s') s ∧ kept (core s) (core s') ∧
  clock w' = clock w ∧
  match r with
  | Ok _ => objects w' = <[id (core s) := s']> (objects w) ∧ adding (core s') = false
  | Raise _ => objects w' = objects w
  end.
Proof.
  unfold Model_insert, bind, timezone_now, modify_core, modify_self, get_self,
    write_row.
  simpl.
  match goal with |- context [execute (?a, ?b)] =>
    destruct (execute_cases a b) as [q [-> | [e ->]]] end; simpl.
  - rewrite ?core_with_core, ?with_core_with_core. simpl.
    destruct (objects w !! id (core s)); simpl; intros [= <- <- <-]; simpl;
      rewrite ?core_with_core, ?with_core_with_core; by repeat split.
  - intros [= <- <- <-]; simpl.
    rewrite ?core_with_core, ?with_core_with_core. by repeat split.
Qed.

Lemma Model_save_spec (s s' : A) (w w' : World A) r :
  Model_save (s, w) = (r, (s', w')) →
  s' = with_core (core s') s ∧ kept (core s) (core s') ∧
  clock w' = clock w ∧
  match r with
  | Ok _ => objects w' = <[id (core s) := s']> (objects w) ∧ adding (core s') = false
  | Raise _ => objects w' = objects w
  end.
Proof.
  unfold Model_save, bind, get_self. simpl.
  destruct (adding (core s)) eqn:Hadd; [apply Model_insert_spec|].
  unfold timezone_now, modify_core, modify_self, write_row. simpl.
  match goal with |- context [execute (?a, ?b)] =>
    destruct (execute_cases a b) as [q [-> | [e ->]]] end; simpl.
  - destruct (objects w !! id (core s)) eqn:Hrow; simpl.
    + intros [= <- <- <-]; simpl.
      rewrite ?core_with_core, ?with_core_with_core. by repeat split.
    + intros Hins. apply Model_insert_spec in Hins; simpl in Hins.
      rewrite core_with_core, with_core_with_core in Hins. exact Hins.
  - intros [= <- <- <-]; simpl.
    rewrite ?core_with_core, ?with_core_with_core. by repeat split.
Qed.

Lemma objects_get_cases (pk : uuid) (s : A) (w : World A) :
  ∃ b, let w1 := mk_World (objects w) (clock w) (reads w) b in
       (∃ row, objects w !! pk = Some row ∧ objects_get pk (s, w) = (Ok row, (s, w1)))
       ∨ (∃ e, objects_get pk (s, w) = (Raise e, (s, w1))).
Proof.
  unfold objects_get, bind.
  destruct (execute_cases s w) as [b [-> | [e ->]]]; exists b; simpl.
  - destruct (objects w !! pk) as [row|]; eauto.
  - eauto.
Qed.

Lemma StatusModel_save_spec (s s' : A) (w w' : World A) r :
  StatusModel_save (s, w) = (r, (s', w')) →
  s' = with_core (core s') s ∧ kept (core s) (core s') ∧
  clock w' = clock w ∧
  match r with
  | Ok _ => objects w' = <[id (core s) := s']> (objects w) ∧ adding (core s') = false
  | Raise _ => objects w' = objects w
  end.
Proof.
  unfold StatusModel_save, bind, get_self. simpl.
  destruct (adding (core s)); simpl.
  { apply Model_save_spec. }
  destruct (objects_get_cases (id (core s)) s w) as [b [(row & Hrow & ->) | [e ->]]];
    simpl.
  2: { intros [= <- <- <-]. rewrite with_core_core. by auto using kept_refl. }
  destruct (Status_eqb (status (core row)) (status (core s))); simpl.
  - intros Hsave. by apply Model_save_spec in Hsave.
  - unfold timezone_now, modify_core, modify_self; simpl.
    intros Hsave. apply Model_save_spec in Hsave; simpl in Hsave.
    rewrite core_with_core in Hsave. simpl in Hsave.
    rewrite with_core_with_core in Hsave.
    destruct Hsave as (Hs' & Hk & Hc & Hr).
    split; [exact Hs'|]. split; [exact Hk|]. split; [exact Hc|]. exact Hr.
Qed.

Lemma Model_insert_returns (s : A) (w : World A) :
  backend w = [] → objects w !! id (core s) = None →
  (Model_insert (s, w)).1 = Ok tt.
Proof.
  intros Hb Hrow. destruct w as [t c n b]; simpl in *; subst b.
  unfold Model_insert, write_row, get_self, execute, timezone_now,
    modify_core, modify_self, bind; simpl.
  rewrite ?core_with_core. simpl. by rewrite Hrow.
Qed.

Lemma Model_save_returns (s : A) (w : World A) :
  backend w = [] →
  (adding (core s) = true ∧ objects w !! id (core s) = None)
  ∨ (adding (core s) = false ∧ is_Some (objects w !! id (core s))) →
  (Model_save (s, w)).1 = Ok tt.
Proof.
  intros Hb Hrow. unfold Model_save, bind, get_self. simpl.
  destruct Hrow as [[-> Hrow] | [-> [row Hrow]]].
  - by apply Model_insert_returns.
  - destruct w as [t c n b]; simpl in *; subst b.
    unfold write_row, execute, timezone_now, modify_core, modify_self; simpl.
    by rewrite Hrow.
Qed.

(** A served save of an instance that is new and not stored yet, or that
    is not new and whose row is stored, returns. *)
Lemma StatusModel_save_returns (s : A) (w : World A) :
  backend w = [] →
  (adding (core s) = true ∧ objects w !! id (core s) = None)
  ∨ (adding (core s) = false ∧ is_Some (objects w !! id (core s))) →
  (StatusModel_save (s, w)).1 = Ok tt.
Proof.
  intros Hb Hrow. unfold StatusModel_save, bind, get_self. simpl.
  destruct Hrow as [[Ha Hrow] | [Ha [row Hrow]]]; rewrite Ha; simpl.
  - apply Model_save_returns; [done|]. by left.
  - destruct w as [t c n b]; simpl in *; subst b.
    unfold objects_get, bind, execute. simpl. rewrite Hrow.
    destruct (Status_eqb _ _); simpl.
    + apply Model_save_returns; [done|]. right. by eauto.
    + unfold timezone_now, modify_core, modify_self. simpl.
      apply Model_save_returns; [done|]. right.
      rewrite core_with_core. simpl. by eauto.
Qed.

End SaveFacts.

#[export] Instance StatusModel_save_contract {A : Type} `{Model A} :
  SaveContract (A := A) StatusModel_save.
Proof.
  split; intros s w; destruct (StatusModel_save (s, w)) as [r [s' w']] eqn:E;
    apply StatusModel_save_spec in E as (Hs & Hk & Hc & Hr); simpl.
  - exact Hk.
  - intros k Hin. destruct r as [[]|e]; [|by rewrite Hr].
    destruct Hr as [-> _]. rewrite lookup_insert. by case_decide.
  - intros ->. destruct Hr as [-> _]. by rewrite lookup_insert_eq.
Qed.

(** ** SequenceGenerator.get_next_number *)

(** The call is the increment followed by the save; what it returns is the
    f-string on the instance as the save leaves it. *)
Lemma get_next_number_unfold g w :
  get_next_number (g, w) =
  let out := StatusModel_save (set_last_number (last_number g + 1) g, w) in
  match out.1 with
  | Ok _ => (Ok (format_number out.2.1), out.2)
  | Raise e => (Raise e, out.2)
  end.
Proof.
  unfold get_next_number, bind, modify_self; simpl.
  by destruct (StatusModel_save _) as [[[]|e] [g' w']].
Qed.

(** The fields of the counter after a call, returned or not. *)
Lemma get_next_number_fields g w :
  let g' := (get_next_number (g, w)).2.1 in
  last_number g' = last_number g + 1 ∧ prefix g' = prefix g ∧
  suffix g' = suffix g ∧ padding g' = padding g ∧
  sequence_type g' = sequence_type g ∧ reset_frequency g' = reset_frequency g ∧
  id (core g') = id (core g).
Proof.
  rewrite get_next_number_unfold.
  destruct (StatusModel_save _) as [r [g' w']] eqn:E.
  apply StatusModel_save_spec in E as (Hg & (Hid & _) & _).
  assert ((let out := (r, (g', w')) in
           match out.1 with
           | Ok _ => (Ok (format_number out.2.1), out.2)
           | Raise e => (Raise e, out.2)
           end).2.1 = g') as -> by by destruct r.
  repeat split; try (rewrite Hg; reflexivity). exact Hid.
Qed.

Lemma get_next_number_result g w str :
  (get_next_number (g, w)).1 = Ok str →
  str = prefix g +:+ zfill (str_int (last_number g + 1)) (padding g) +:+ suffix g.
Proof.
  pose proof (get_next_number_fields g w) as (Hn & Hp & Hs & Hw & _).
  revert Hn Hp Hs Hw. rewrite get_next_number_unfold.
  destruct (StatusModel_save _) as [[[]|e] [g' w']]; simpl; [|done].
  intros Hn Hp Hs Hw [= <-]. unfold format_number. by rewrite Hn, Hp, Hs, Hw.
Qed.

(** A call that returns has stored the instance it leaves. *)
Lemma get_next_number_increments_fields_stored g w str g' w' :
  get_next_number (g, w) = (Ok str, (g', w')) →
  objects w' = <[id (core g) := g']> (objects w) ∧
  str = prefix g +:+ zfill (str_int (last_number g + 1)) (padding g) +:+ suffix g.
Proof.
  intros Hcall.
  pose proof (get_next_number_result g w str) as Hstr.
  rewrite Hcall in Hstr. specialize (Hstr eq_refl). split; [|exact Hstr].
  rewrite get_next_number_unfold in Hcall.
  destruct (StatusModel_save _) as [[[]|e] [g1 w1]] eqn:E; simpl in Hcall; [|done].
  injection Hcall as _ <- <-.
  by apply StatusModel_save_spec in E as (_ & _ & _ & -> & _).
Qed.

(** The formatted strings of one counter tell its numbers apart. *)
Lemma format_inj (pre suf : string) (w a b : Z) :
  pre +:+ zfill (str_int a) w +:+ suf = pre +:+ zfill (str_int b) w +:+ suf → a = b.
Proof.
  intros Heq. apply (inj (String.app pre)) in Heq.
  apply string_app_inv_tail in Heq. by apply zfill_str_int_inj in Heq.
Qed.

(** The [i]-th call of a run leaves the counter at [last_number + i + 1]. *)
Lemma calls_lookup ws : ∀ g i r gi,
  calls g ws !! i = Some (r, gi) →
  last_number gi = last_number g + Z.of_nat i + 1 ∧
  prefix gi = prefix g ∧ suffix gi = suffix g ∧ padding gi = padding g ∧
  (∀ str, r = Ok str →
     str = prefix g +:+ zfill (str_int (last_number gi)) (padding g) +:+ suffix g).
Proof.
  induction ws as [|w ws IH]; intros g i r gi; [done|].
  pose proof (get_next_number_fields g w) as (Hn & Hp & Hs & Hw & _).
  pose proof (get_next_number_result g w) as Hres.
  change (calls g (w :: ws)) with
    (((get_next_number (g, w)).1, (get_next_number (g, w)).2.1)
       :: calls (get_next_number (g, w)).2.1 ws).
  destruct (get_next_number (g, w)) as [r1 [g1 w1]]; simpl in *.
  destruct i as [|i]; simpl.
  - intros ?; simplify_eq. repeat split; try done; [lia|].
    intros str Hstr. apply Hres in Hstr. by rewrite Hn.
  - intros Hi. apply IH in Hi as (Hn' & Hp' & Hs' & Hw' & Hr).
    repeat split; try congruence; [lia|].
    intros str Hstr. apply Hr in Hstr. by rewrite Hstr, Hp, Hs, Hw.
Qed.



(** C2. A call that returns has incremented [last_number] by exactly one,
    has stored the counter so incremented under its primary key, and returns
    prefix + zero-padded new number + suffix; with [padding = 6] and
    [last_number = 0] the numeric portion is "000001". *)
Theorem get_next_number_increments_and_formats g w str g' w' :
  get_next_number (g, w) = (Ok str, (g', w')) →
  last_number g' = last_number g + 1 ∧
  objects w' !! id (core g) = Some g' ∧
  str = prefix g +:+ zfill (str_int (last_number g + 1)) (padding g) +:+ suffix g ∧
  (padding g = 6 → last_number g = 0 → str = prefix g +:+ "000001" +:+ suffix g).
Proof.
  intros Hcall.
  pose proof (get_next_number_fields g w) as (Hn & _).
  pose proof (get_next_number_result g w str) as Hstr.
  rewrite Hcall in Hn, Hstr. simpl in Hn, Hstr. specialize (Hstr eq_refl).
  split; [exact Hn|]. split; [|split; [exact Hstr|]].
  - rewrite get_next_number_unfold in Hcall.
    destruct (StatusModel_save _) as [[[]|e] [g1 w1]] eqn:E; simpl in Hcall; [|done].
    injection Hcall as _ <- <-.
    apply StatusModel_save_spec in E as (_ & _ & _ & -> & _).
    apply lookup_insert_eq.
  - intros Hp Hl. by rewrite Hstr, Hp, Hl.
Qed.

Lemma get_next_number_increments_and_formats_witness :
  (get_next_number (g_fresh, w0)).1 = Ok "000001" ∧
  last_number (get_next_number (g_fresh, w0)).2.1 = last_number g_fresh + 1.
Proof.
  split; [vm_compute; reflexivity|].
  refine (proj1 (get_next_number_increments_and_formats g_fresh w0 "000001"
                   (get_next_number (g_fresh, w0)).2.1
                   (get_next_number (g_fresh, w0)).2.2 _)).
  vm_compute; reflexivity.
Defined.

(** C3, as the code has it.  [get_next_number] does not read
    [reset_frequency], the clock or the time of the last save: on a yearly
    counter at 120 whose row was last saved in year [Y], a call in year
    [Y + 1] that returns leaves the counter at 121 and returns the numeric
    portion "000121" (for the default padding of 6). *)
Theorem get_next_number_yearly_no_reset g w str g' w' (Y : Z) t_last :
  reset_frequency g = yearly →
  last_number g = 120 →
  padding g = 6 →
  updated_at (core g) = Some t_last → year t_last = Y →
  (∀ n, year (clock w n) = Y + 1) →
  get_next_number (g, w) = (Ok str, (g', w')) →
  last_number g' = 121 ∧ str = prefix g +:+ "000121" +:+ suffix g.
Proof.
  intros _ Hl Hp _ _ _ Hcall.
  pose proof (get_next_number_fields g w) as (Hn & _).
  pose proof (get_next_number_result g w str) as Hstr.
  rewrite Hcall in Hn, Hstr. simpl in Hn, Hstr. specialize (Hstr eq_refl).
  rewrite Hn, Hstr, Hl, Hp. done.
Qed.

Lemma get_next_number_yearly_no_reset_witness :
  last_number (get_next_number (g_yearly, w_2024)).2.1 = 121 ∧
  (get_next_number (g_yearly, w_2024)).1 = Ok "000121".
Proof.
  split; [|vm_compute; reflexivity].
  refine (proj1 (get_next_number_yearly_no_reset g_yearly w_2024 "000121"
                   (get_next_number (g_yearly, w_2024)).2.1
                   (get_next_number (g_yearly, w_2024)).2.2
                   2023 t_2023 _ _ _ _ _ _ _)).
  all: reflexivity.
Defined.

(** C3 fails as stated: a yearly counter at 120, last saved in 2023 and
    called in 2024, returns "000121", not "000001". *)
Lemma yearly_counter_is_not_reset :
  reset_frequency g_yearly = yearly ∧ last_number g_yearly = 120 ∧
  (year <$> updated_at (core g_yearly)) = Some 2023 ∧
  (∀ n, year (clock w_2024 n) = 2023 + 1) ∧
  (get_next_number (g_yearly, w_2024)).1 = Ok "000121" ∧
  (get_next_number (g_yearly, w_2024)).1 ≠ Ok "000001".
Proof.
  repeat split; try reflexivity.
  vm_compute. discriminate.
Qed.

(** C4, as the code has it.  With prefix "STU-", no suffix and padding 4, the
    call on a counter at 5 returns "STU-0006": the padding is the width of
    the numeric portion. *)
Theorem get_next_number_stu_sixth g w str g' w' :
  prefix g = "STU-" → suffix g = "" → padding g = 4 → last_number g = 5 →
  get_next_number (g, w) = (Ok str, (g', w')) →
  str = "STU-0006".
Proof.
  intros Hpre Hsuf Hp Hl Hcall.
  pose proof (get_next_number_result g w str) as Hstr.
  rewrite Hcall in Hstr. specialize (Hstr eq_refl).
  rewrite Hstr, Hpre, Hsuf, Hp, Hl. reflexivity.
Qed.

Lemma get_next_number_stu_sixth_witness :
  ∃ str, (get_next_number (g_stu, w0)).1 = Ok str ∧ str = "STU-0006".
Proof.
  exists (prefix g_stu +:+ zfill (str_int (last_number g_stu + 1)) (padding g_stu)
            +:+ suffix g_stu).
  split; [vm_compute; reflexivity|].
  apply (get_next_number_stu_sixth g_stu w0 _
           (get_next_number (g_stu, w0)).2.1 (get_next_number (g_stu, w0)).2.2);
    vm_compute; reflexivity.
Defined.

(** C4 fails as stated: six calls in a row on a fresh "STU-" counter with
    padding 4 return "STU-0001" to "STU-0006"; the sixth is not
    "STU-000006". *)
Lemma stu_sixth_is_four_digits :
  prefix g_stu0 = "STU-" ∧ suffix g_stu0 = "" ∧ padding g_stu0 = 4 ∧
  last_number g_stu0 = 0 ∧
  (next_numbers 6 (g_stu0, w0)).1
  = Ok ["STU-0001"; "STU-0002"; "STU-0003"; "STU-0004"; "STU-0005"; "STU-0006"] ∧
  (next_numbers 5 (g_stu0, w0)).2.1 = set_last_number 5 (next_numbers 1 (g_stu0, w0)).2.1 ∧
  (get_next_number (next_numbers 5 (g_stu0, w0)).2).1 = Ok "STU-0006" ∧
  (get_next_number (next_numbers 5 (g_stu0, w0)).2).1 ≠ Ok "STU-000006".
Proof.
  repeat split; try reflexivity; vm_compute; discriminate.
Qed.

(** C5.  When the save of an allocation raises, the call raises the same
    exception and nothing is committed: the table is as it was before the
    call, so the stored counter, and with it the [last_number] that every
    other caller sees, is not incremented. *)
Theorem get_next_number_failed_save g w e g' w' :
  StatusModel_save (set_last_number (last_number g + 1) g, w) = (Raise e, (g', w')) →
  get_next_number (g, w) = (Raise e, (g', w')) ∧
  objects w' = objects w ∧
  last_number <$> (objects w' !! id (core g)) = last_number <$> (objects w !! id (core g)).
Proof.
  intros Hsave.
  assert (get_next_number (g, w) = (Raise e, (g', w'))) as Hcall
    by by rewrite get_next_number_unfold, Hsave.
  apply StatusModel_save_spec in Hsave as (_ & _ & _ & Hobj).
  split; [exact Hcall|]. split; [exact Hobj|]. by rewrite Hobj.
Qed.

Lemma get_next_number_failed_save_witness :
  (get_next_number (g_yearly, w_2024_down)).1 = Raise (DatabaseError "connection lost") ∧
  last_number <$> (objects w_2024_down !! 9%N) = Some 120 ∧
  last_number <$> (objects (get_next_number (g_yearly, w_2024_down)).2.2 !! 9%N)
  = Some 120.
Proof.
  pose proof (get_next_number_failed_save g_yearly w_2024_down
                (DatabaseError "connection lost")
                (get_next_number (g_yearly, w_2024_down)).2.1
                (get_next_number (g_yearly, w_2024_down)).2.2) as Hthm.
  destruct Hthm as (Hcall & _ & Hrow); [vm_compute; reflexivity|].
  split; [exact (f_equal fst Hcall)|]. split; [reflexivity|].
  exact (eq_trans Hrow eq_refl).
Defined.

(** The instance the failed call was made on keeps the increment, which
    was assigned before the save: on a counter at 0 that is not stored yet
    and whose save the backend refuses, the instance is left at 1. *)
Remark failed_allocation_keeps_increment :
  (get_next_number (g_fresh, w_down)).1 = Raise (DatabaseError "connection lost") ∧
  last_number g_fresh = 0 ∧
  last_number (get_next_number (g_fresh, w_down)).2.1 = 1 ∧
  (get_next_number (g_fresh, w_down)).2.1 ≠ g_fresh.
Proof.
  repeat split; try reflexivity. vm_compute. discriminate.
Qed.

(** C6.  When no stored counter has the kind, [allocate] raises
    [DoesNotExist] (the spec's NotFoundError) and leaves the world as it was;
    and when [allocate] returns, a counter of the kind is stored. *)
Theorem allocate_unknown_kind kind (w : World SequenceGenerator) :
  ((∀ k row, objects w !! k = Some row → sequence_type row ≠ kind) →
   allocate kind w = (Raise DoesNotExist, w)) ∧
  (∀ str, (allocate kind w).1 = Ok str →
          ∃ k row, objects w !! k = Some row ∧ sequence_type row = kind).
Proof.
  unfold allocate, rows_of_kind. split.
  - intros Hnone.
    assert (filter (λ kv, sequence_type kv.2 = kind) (objects w) = ∅) as ->; [|done].
    apply map_empty. intros k. apply map_lookup_filter_None. right.
    intros row Hrow. by apply Hnone in Hrow.
  - intros str.
    destruct (map_to_list _) as [|[k row] rest] eqn:E; [done|].
    intros _. exists k, row.
    assert ((k, row) ∈ map_to_list
              (filter (λ kv, sequence_type kv.2 = kind) (objects w))) as Hin
      by (rewrite E; left).
    apply elem_of_map_to_list, map_lookup_filter_Some in Hin. exact Hin.
Qed.

Lemma allocate_unknown_kind_witness :
  allocate RECEIPT w_2024 = (Raise DoesNotExist, w_2024) ∧
  (allocate INVOICE w_2024).1 = Ok "000121".
Proof.
  split; [|vm_compute; reflexivity].
  apply (proj1 (allocate_unknown_kind RECEIPT w_2024)).
  intros k row Hrow. unfold w_2024 in Hrow. simpl in Hrow.
  apply lookup_singleton_Some in Hrow as [_ <-]. discriminate.
Defined.

(** C7.  Reading [last_number], as an attribute or through [__str__],
    returns it and leaves the counter and the world as they were. *)
Theorem read_last_number_pure g (w : World SequenceGenerator) :
  read_last_number (g, w) = (Ok (last_number g), (g, w)) ∧
  (SequenceGenerator_str (g, w)).2 = (g, w).
Proof. split; reflexivity. Qed.

(** Two allocations by kind, one after the other, each on an instance
    loaded when it starts: the second returns the number after the first
    one's, and the strings differ. *)
Lemma allocate_twice kind (w w1 w2 : World SequenceGenerator) s1 s2 :
  keyed (objects w) →
  allocate kind w = (Ok s1, w1) →
  allocate kind w1 = (Ok s2, w2) →
  ∃ row,
    s1 = prefix row +:+ zfill (str_int (last_number row + 1)) (padding row) +:+ suffix row ∧
    s2 = prefix row +:+ zfill (str_int (last_number row + 2)) (padding row) +:+ suffix row ∧
    s1 ≠ s2.
Proof.
  intros Hkeyed. unfold allocate at 1, rows_of_kind.
  destruct (map_to_list _) as [|[k row] [|? ?]] eqn:E; [done| |done].
  intros H1.
  assert (filter (λ kv, sequence_type kv.2 = kind) (objects w) = {[k := row]}) as Hf.
  { rewrite <- (list_to_map_to_list (filter _ (objects w))), E. simpl.
    by rewrite insert_empty. }
  assert (objects w !! k = Some row ∧ sequence_type row = kind) as [Hrow Hkind].
  { apply (map_lookup_filter_Some (λ kv, sequence_type kv.2 = kind) (objects w) k row).
    rewrite Hf. apply lookup_singleton_eq. }
  apply Hkeyed in Hrow as Hid.
  destruct (get_next_number (row, w)) as [r [row' w']] eqn:Hcall.
  simpl in H1. injection H1 as -> ->.
  pose proof (get_next_number_fields row w) as Hfields.
  rewrite Hcall in Hfields. simpl in Hfields.
  destruct Hfields as (Hn & Hp & Hs & Hw & Hty & _ & Hid').
  destruct (get_next_number_increments_fields_stored row w s1 row' w1 Hcall) as [Hst Hs1].
  assert (filter (λ kv, sequence_type kv.2 = kind) (objects w1) = {[k := row']}) as Hf1.
  { rewrite Hst, Hid. apply map_eq. intros j.
    destruct (decide (j = k)) as [->|Hne].
    - rewrite lookup_singleton_eq.
      apply map_lookup_filter_Some. rewrite lookup_insert_eq. split; [done|].
      simpl. congruence.
    - rewrite lookup_singleton_ne by done.
      apply map_lookup_filter_None. right. intros x Hx.
      rewrite lookup_insert_ne in Hx by done. intros Hxk.
      assert (filter (λ kv, sequence_type kv.2 = kind) (objects w) !! j = Some x) as Hj
        by by apply map_lookup_filter_Some.
      rewrite Hf, lookup_singleton_ne in Hj by done. done. }
  unfold allocate, rows_of_kind. rewrite Hf1, map_to_list_singleton.
  destruct (get_next_number (row', w1)) as [r2 [row2 w2']] eqn:Hcall2.
  simpl. intros [= -> ->].
  pose proof (get_next_number_result row' w1 s2) as Hs2.
  rewrite Hcall2 in Hs2. specialize (Hs2 eq_refl).
  rewrite Hn, Hp, Hs, Hw in Hs2.
  replace (last_number row + 1 + 1) with (last_number row + 2) in Hs2 by lia.
  exists row. split; [exact Hs1|]. split; [exact Hs2|].
  rewrite Hs1, Hs2. intros Heq%format_inj. lia.
Qed.


(** ** AcademicSession.save *)

Lemma cleared_lookup (t : gmap uuid AcademicSession) k row :
  cleared t !! k = Some row → is_current row = false.
Proof.
  unfold cleared. rewrite lookup_fmap_Some. intros (r0 & <- & _).
  by destruct (is_current r0) eqn:E.
Qed.

Lemma cleared_is_Some (t : gmap uuid AcademicSession) k : is_Some (t !! k) → is_Some (cleared t !! k).
Proof. unfold cleared. rewrite lookup_fmap. by intros [x ->]. Qed.

Lemma at_most_one_cleared t : at_most_one_current (cleared t).
Proof.
  intros k1 k2 r1 r2 H1 _ Hc _. apply cleared_lookup in H1. congruence.
Qed.

Lemma at_most_one_insert_other (t : gmap uuid AcademicSession) k x :
  is_current x = false → at_most_one_current t → at_most_one_current (<[k := x]> t).
Proof.
  intros Hx Ht k1 k2 r1 r2.
  rewrite !lookup_insert. repeat case_decide; intros; simplify_eq; try congruence.
  by eapply Ht.
Qed.

Lemma only_current_insert (t : gmap uuid AcademicSession) (k : uuid) x :
  (∀ j row, t !! j = Some row → is_current row = false) →
  ∀ j row, <[k := x]> t !! j = Some row → is_current row = true → j = k.
Proof.
  intros Ht j row. rewrite lookup_insert. case_decide; [done|].
  intros Hj Hc. apply Ht in Hj. congruence.
Qed.

(** The save of a session: the table the base save finds is the table of
    the call, or the cleared one when the session is current and the UPDATE
    was served. *)
Lemma AcademicSession_save_spec s w r s' w' :
  AcademicSession_save (s, w) = (r, (s', w')) →
  ∃ t, (if is_current s
        then t = cleared (objects w) ∨ (t = objects w ∧ ∃ e, r = Raise e)
        else t = objects w) ∧
       s' = with_core (core s') s ∧ kept (core s) (core s') ∧
       match r with
       | Ok _ => objects w' = <[id (core s) := s']> t
       | Raise _ => objects w' = t
       end.
Proof.
  intros Hsave. unfold AcademicSession_save, bind, get_self in Hsave.
  simpl in Hsave. destruct (is_current s) eqn:Hc.
  - unfold objects_filter_update, bind in Hsave.
    destruct (execute_cases s w) as [b [Hex | [e Hex]]]; rewrite Hex in Hsave;
      simpl in Hsave.
    + apply StatusModel_save_spec in Hsave as (Hs & Hk & _ & Hr).
      exists (cleared (objects w)).
      split; [by left|]. split; [exact Hs|]. split; [exact Hk|].
      destruct r; [exact (proj1 Hr) | exact Hr].
    + injection Hsave as <- <- <-. exists (objects w).
      split; [right; by eauto|]. split; [by rewrite with_core_core|].
      split; [apply kept_refl | reflexivity].
  - apply StatusModel_save_spec in Hsave as (Hs & Hk & _ & Hr).
    exists (objects w).
    split; [reflexivity|]. split; [exact Hs|]. split; [exact Hk|].
    destruct r; [exact (proj1 Hr) | exact Hr].
Qed.

#[export] Instance AcademicSession_save_contract : SaveContract AcademicSession_save.
Proof.
  split; intros s w; destruct (AcademicSession_save (s, w)) as [r [s' w']] eqn:E;
    apply AcademicSession_save_spec in E as (t & Ht & Hs & Hk & Hr); simpl.
  - exact Hk.
  - intros k Hin.
    assert (is_Some (t !! k)) as Hin'.
    { destruct (is_current s); [destruct Ht as [-> | [-> _]]|subst t];
        auto using cleared_is_Some. }
    destruct r as [[]|e]; [|by rewrite Hr].
    rewrite Hr, lookup_insert. by case_decide.
  - intros ->. by rewrite Hr, lookup_insert_eq.
Qed.

(** Whatever a save of a session does, returned or not, it does not bring
    a second current session into the table. *)
Lemma AcademicSession_save_keeps_at_most_one s w :
  at_most_one_current (objects w) →
  at_most_one_current (objects (AcademicSession_save (s, w)).2.2).
Proof.
  intros Hone.
  destruct (AcademicSession_save (s, w)) as [r [s' w']] eqn:E.
  apply AcademicSession_save_spec in E as (t & Ht & Hs & _ & Hr). simpl.
  assert (is_current s' = is_current s) as Hcur by (by rewrite Hs).
  destruct (is_current s) eqn:Hc.
  - destruct Ht as [-> | [-> [e ->]]]; [|by rewrite Hr].
    destruct r as [[]|e]; rewrite Hr; [|apply at_most_one_cleared].
    intros k1 k2 r1 r2 H1 H2 Hc1 Hc2.
    pose proof (only_current_insert (cleared (objects w)) (id (core s)) s'
                  (λ j row, cleared_lookup (objects w) j row)) as Honly.
    by rewrite (Honly _ _ H1 Hc1), (Honly _ _ H2 Hc2).
  - subst t. destruct r as [[]|e]; rewrite Hr; [|done].
    apply at_most_one_insert_other; [congruence | assumption].
Qed.

(** Saves alone, from a table with at most one current session (the empty
    table is one), never store two current sessions. *)
Lemma saves_at_most_one_current ss : ∀ w,
  at_most_one_current (objects w) → at_most_one_current (objects (saves ss w)).
Proof.
  induction ss as [|s ss IH]; intros w Hw; [exact Hw|].
  simpl. by apply IH, AcademicSession_save_keeps_at_most_one.
Qed.

(** C8.  A save of a session with [is_current=True] that returns leaves the
    saved session stored and current and no other stored session current;
    and every save, of any session and whether it returns or raises, keeps a
    table with at most one current session in that state. *)
Theorem AcademicSession_save_single_current s w r s' w' :
  AcademicSession_save (s, w) = (r, (s', w')) →
  (is_current s = true → r = Ok tt →
     objects w' !! id (core s) = Some s' ∧ is_current s' = true ∧
     ∀ k row, objects w' !! k = Some row → is_current row = true → k = id (core s)) ∧
  (at_most_one_current (objects w) → at_most_one_current (objects w')).
Proof.
  intros E. pose proof E as Hsave.
  apply AcademicSession_save_spec in Hsave as (t & Ht & Hs & Hk & Hr).
  assert (is_current s' = is_current s) as Hcur by (by rewrite Hs).
  split.
  - intros Hc ->. rewrite Hc in Ht. destruct Ht as [-> | [_ [e [=]]]].
    rewrite Hr. split; [apply lookup_insert_eq|]. split; [congruence|].
    apply only_current_insert. intros j row. apply cleared_lookup.
  - intros Hone.
    pose proof (AcademicSession_save_keeps_at_most_one s w Hone) as Hkeep.
    by rewrite E in Hkeep.
Qed.

Lemma AcademicSession_save_single_current_witness :
  let out := AcademicSession_save (s0, w_sessions) in
  is_current <$> objects out.2.2 = {[ 11%N := true; 12%N := false ]} ∧
  at_most_one_current (objects out.2.2).
Proof.
  split; [vm_compute; reflexivity|].
  refine (proj2 (AcademicSession_save_single_current s0 w_sessions
                   (AcademicSession_save (s0, w_sessions)).1
                   (AcademicSession_save (s0, w_sessions)).2.1
                   (AcademicSession_save (s0, w_sessions)).2.2 _) _).
  - vm_compute; reflexivity.
  - intros k1 k2 r1 r2 H1 H2 _ _. unfold w_sessions in H1, H2. simpl in H1, H2.
    apply lookup_singleton_Some in H1 as [<- _].
    apply lookup_singleton_Some in H2 as [<- _]. reflexivity.
Defined.

(** ** SoftDeleteModel.delete and restore *)

Section SoftDelete.
Context {A : Type} `{Model A}.

Lemma delete_unfold (save : M A unit) (s : A) (w : World A) :
  delete save (s, w) =
  save (with_core (set_deleted_at (Some (clock w (reads w)))
                     (set_is_deleted true (core s))) s,
        mk_World (objects w) (clock w) (S (reads w)) (backend w)).
Proof.
  unfold delete, bind, modify_core, modify_self, timezone_now; simpl.
  by rewrite core_with_core, with_core_with_core.
Qed.


End SoftDelete.



(** ** Notification.mark_as_read *)

Lemma mark_as_read_unfold n w :
  mark_as_read (n, w) =
  StatusModel_save (set_read_at (Some (clock w (reads w))) (set_is_read true n),
                    mk_World (objects w) (clock w) (S (reads w)) (backend w)).
Proof. reflexivity. Qed.

(** C10.  [mark_as_read] sets [is_read] and stamps [read_at] with the
    reading of the clock; the fields of the notification itself are as they
    were; when the call returns, the notification is stored under its primary
    key, and it does return when the backend serves and the notification is
    either new with no row under its primary key, or not new with its row
    stored. *)
Theorem mark_as_read_sets_and_keeps n w r n' w' :
  mark_as_read (n, w) = (r, (n', w')) →
  (is_read n' = true ∧ read_at n' = Some (clock w (reads w))) ∧
  (user n' = user n ∧ title n' = title n ∧ message n' = message n ∧
   notification_type n' = notification_type n ∧ priority n' = priority n ∧
   action_url n' = action_url n ∧ expires_at n' = expires_at n ∧
   related_model n' = related_model n ∧
   related_object_id n' = related_object_id n) ∧
  (r = Ok tt → objects w' !! id (core n) = Some n') ∧
  (backend w = [] →
   (adding (core n) = true ∧ objects w !! id (core n) = None)
   ∨ (adding (core n) = false ∧ is_Some (objects w !! id (core n))) →
   r = Ok tt).
Proof.
  rewrite mark_as_read_unfold. intros Hsave.
  pose proof (StatusModel_save_returns
                (set_read_at (Some (clock w (reads w))) (set_is_read true n))
                (mk_World (objects w) (clock w) (S (reads w)) (backend w))) as Hret.
  rewrite Hsave in Hret. simpl in Hret.
  apply StatusModel_save_spec in Hsave as (Hn & _ & _ & Hr).
  split; [by rewrite Hn|]. split; [by rewrite Hn|]. split; [|exact Hret].
  intros ->. destruct Hr as [-> _]. apply lookup_insert_eq.
Qed.

Lemma mark_as_read_sets_and_keeps_witness :
  (mark_as_read (n0, w0)).1 = Ok tt ∧
  is_read (mark_as_read (n0, w0)).2.1 = true ∧
  title (mark_as_read (n0, w0)).2.1 = "Test Notification".
Proof.
  pose proof (mark_as_read_sets_and_keeps n0 w0 (mark_as_read (n0, w0)).1
                (mark_as_read (n0, w0)).2.1 (mark_as_read (n0, w0)).2.2)
    as Hthm.
  destruct Hthm as ((Hread & _) & (_ & Htitle & _) & _ & Hok);
    [vm_compute; reflexivity|].
  split; [apply Hok; [reflexivity | left; split; reflexivity]|].
  split; [exact Hread | exact Htitle].
Defined.

(** * Further properties of the models *)

(** ** StatusModel.save *)

Section StatusSave.
Context {A : Type} `{Model A}.

Lemma execute_served (s : A) (w : World A) :
  serves w = true →
  ∃ b, execute (s, w) = (Ok tt, (s, mk_World (objects w) (clock w) (reads w) b)).
Proof.
  unfold serves, execute. simpl.
  destruct w as [t c n [|[e|] b]]; simpl; intros Hs; try done; eauto.
Qed.

Lemma objects_get_served (pk : uuid) (s : A) (w : World A) :
  serves w = true →
  ∃ b, objects_get pk (s, w) =
       (match objects w !! pk with
        | Some row => Ok row
        | None => Raise DoesNotExist
        end, (s, mk_World (objects w) (clock w) (reads w) b)).
Proof.
  intros Hs. destruct (execute_served s w Hs) as [b Hb]. exists b.
  unfold objects_get, bind. rewrite Hb. simpl. by destruct (objects w !! pk).
Qed.

(** What [Model_save] leaves in [status_changed_at] of an instance that is
    not new and whose row is stored: the save is an UPDATE. *)
Lemma Model_save_update_stamp (s s' : A) (w w' : World A) r row :
  adding (core s) = false →
  objects w !! id (core s) = Some row →
  Model_save (s, w) = (r, (s', w')) →
  status_changed_at (core s') = status_changed_at (core s).
Proof.
  intros Hadd Hrow.
  unfold Model_save, bind, get_self, timezone_now, modify_core, modify_self,
    write_row.
  simpl. rewrite Hadd.
  match goal with |- context [execute (?a, ?b)] =>
    destruct (execute_cases a b) as [q [-> | [e ->]]] end; simpl;
    rewrite ?Hrow; intros [= <- <- <-]; simpl; by rewrite ?core_with_core.
Qed.

(** X1. [StatusModel.save] on a stored instance compares the status of the
    instance with the status of the stored row: when they differ,
    [status_changed_at] is stamped with the reading of the clock, and when
    they are equal it is left as it is. *)
Theorem StatusModel_save_stamps_on_change (s s' : A) (w w' : World A) r row :
  adding (core s) = false →
  objects w !! id (core s) = Some row →
  serves w = true →
  StatusModel_save (s, w) = (r, (s', w')) →
  status_changed_at (core s') =
    if Status_eqb (status (core row)) (status (core s))
    then status_changed_at (core s)
    else Some (clock w (reads w)).
Proof.
  intros Hadd Hrow Hserves.
  unfold StatusModel_save, bind, get_self. simpl. rewrite Hadd. simpl.
  destruct (objects_get_served (id (core s)) s w Hserves) as [b ->].
  rewrite Hrow.
  destruct (Status_eqb (status (core row)) (status (core s))); simpl.
  - intros Hsave. by apply Model_save_update_stamp with (row := row) in Hsave.
  - unfold timezone_now, modify_core, modify_self. simpl.
    intros Hsave. apply Model_save_update_stamp with (row := row) in Hsave.
    + by rewrite Hsave, core_with_core.
    + by rewrite core_with_core.
    + by rewrite core_with_core.
Qed.

(** X2. [StatusModel.save] on an instance that is not new and whose row is
    not stored raises [DoesNotExist]: nothing is written and the instance is
    as it was. *)
Theorem StatusModel_save_missing_row (s : A) (w : World A) :
  adding (core s) = false →
  objects w !! id (core s) = None →
  serves w = true →
  (StatusModel_save (s, w)).1 = Raise DoesNotExist ∧
  (StatusModel_save (s, w)).2.1 = s ∧
  objects (StatusModel_save (s, w)).2.2 = objects w.
Proof.
  intros Hadd Hrow Hserves.
  unfold StatusModel_save, bind, get_self. simpl. rewrite Hadd. simpl.
  destruct (objects_get_served (id (core s)) s w Hserves) as [b ->].
  by rewrite Hrow.
Qed.

(** X3. Whatever its outcome, [StatusModel.save] leaves the rows stored
    under the other primary keys as they were. *)
Theorem StatusModel_save_other_rows (s s' : A) (w w' : World A) r k :
  StatusModel_save (s, w) = (r, (s', w')) →
  k ≠ id (core s) →
  objects w' !! k = objects w !! k.
Proof.
  intros Hsave Hk. apply StatusModel_save_spec in Hsave as (_ & _ & _ & Hr).
  destruct r as [[]|e]; [|by rewrite Hr].
  destruct Hr as [-> _]. by rewrite lookup_insert_ne.
Qed.

(** X4. A table in which every row is stored under its own primary key is
    still one after [StatusModel.save], whatever the outcome. *)
Theorem StatusModel_save_pk_keyed (s s' : A) (w w' : World A) r :
  StatusModel_save (s, w) = (r, (s', w')) →
  pk_keyed (objects w) → pk_keyed (objects w').
Proof.
  intros Hsave Hkeyed. apply StatusModel_save_spec in Hsave as (_ & (Hid & _) & _ & Hr).
  destruct r as [[]|e]; [|by rewrite Hr].
  destruct Hr as [-> _]. intros k row. rewrite lookup_insert.
  case_decide; [|by apply Hkeyed]. intros [= <-]. congruence.
Qed.

End StatusSave.

Lemma StatusModel_save_stamps_on_change_witness :
  status_changed_at (core (StatusModel_save (n_archived, w_notes)).2.1) = Some t_2024 ∧
  status_changed_at (core (StatusModel_save (n_stored, w_notes)).2.1) = Some t_2023.
Proof.
  split.
  - refine (eq_trans
              (StatusModel_save_stamps_on_change n_archived
                 (StatusModel_save (n_archived, w_notes)).2.1 w_notes
                 (StatusModel_save (n_archived, w_notes)).2.2
                 (StatusModel_save (n_archived, w_notes)).1 n_stored _ _ _ _) _);
      vm_compute; reflexivity.
  - refine (eq_trans
              (StatusModel_save_stamps_on_change n_stored
                 (StatusModel_save (n_stored, w_notes)).2.1 w_notes
                 (StatusModel_save (n_stored, w_notes)).2.2
                 (StatusModel_save (n_stored, w_notes)).1 n_stored _ _ _ _) _);
      vm_compute; reflexivity.
Defined.

Lemma StatusModel_save_missing_row_witness :
  (StatusModel_save (n_stored, w0)).1 = Raise DoesNotExist ∧
  objects (StatusModel_save (n_stored, w0)).2.2 = ∅.
Proof.
  destruct (StatusModel_save_missing_row n_stored w0) as (Hr & _ & Ho);
    [reflexivity..|].
  split; [exact Hr | exact Ho].
Defined.

Lemma StatusModel_save_other_rows_witness :
  (StatusModel_save (n_archived, w_two_notes)).1 = Ok tt ∧
  objects (StatusModel_save (n_archived, w_two_notes)).2.2 !! 4%N = Some n_other.
Proof.
  split; [vm_compute; reflexivity|].
  refine (eq_trans
            (StatusModel_save_other_rows n_archived
               (StatusModel_save (n_archived, w_two_notes)).2.1 w_two_notes
               (StatusModel_save (n_archived, w_two_notes)).2.2
               (StatusModel_save (n_archived, w_two_notes)).1 4%N _ _) _).
  - vm_compute; reflexivity.
  - vm_compute. discriminate.
  - vm_compute; reflexivity.
Defined.

Lemma StatusModel_save_pk_keyed_witness :
  pk_keyed (objects (StatusModel_save (n_archived, w_notes)).2.2).
Proof.
  apply (StatusModel_save_pk_keyed n_archived
           (StatusModel_save (n_archived, w_notes)).2.1 w_notes
           (StatusModel_save (n_archived, w_notes)).2.2
           (StatusModel_save (n_archived, w_notes)).1).
  - vm_compute; reflexivity.
  - intros k row Hrow. unfold w_notes in Hrow. simpl in Hrow.
    apply lookup_singleton_Some in Hrow as [<- <-]. reflexivity.
Defined.

(** ** AcademicSession *)

(** X5. [AcademicSession.save] writes to the other rows only through its
    UPDATE: a row stored under another primary key is, after the call, as it
    was or as it was with [is_current] cleared; and when the saved session is
    not current, it is as it was. *)
Theorem AcademicSession_save_other_rows s w r s' w' k :
  AcademicSession_save (s, w) = (r, (s', w')) →
  k ≠ id (core s) →
  (objects w' !! k = objects w !! k ∨
   objects w' !! k = set_is_current false <$> (objects w !! k)) ∧
  (is_current s = false → objects w' !! k = objects w !! k).
Proof.
  intros Hsave Hk.
  apply AcademicSession_save_spec in Hsave as (t & Ht & _ & _ & Hr).
  assert (objects w' !! k = t !! k) as ->.
  { destruct r as [[]|e]; rewrite Hr; [by rewrite lookup_insert_ne | done]. }
  assert (cleared (objects w) !! k = objects w !! k ∨
          cleared (objects w) !! k = set_is_current false <$> (objects w !! k)) as Hcl.
  { unfold cleared. rewrite lookup_fmap.
    destruct (objects w !! k) as [row|]; simpl; [|by left].
    destruct (is_current row) eqn:E; [by right | by left]. }
  destruct (is_current s).
  - split; [|done]. destruct Ht as [-> | [-> _]]; [exact Hcl | by left].
  - subst t. by split; [left|].
Qed.

Lemma AcademicSession_save_other_rows_witness :
  objects (AcademicSession_save (s0, w_sessions)).2.2 !! 12%N
  = Some (set_is_current false s1) ∧
  objects (AcademicSession_save (s_plain, w_sessions)).2.2 !! 12%N = Some s1.
Proof.
  split; [vm_compute; reflexivity|].
  refine (proj2 (AcademicSession_save_other_rows s_plain w_sessions
                   (AcademicSession_save (s_plain, w_sessions)).1
                   (AcademicSession_save (s_plain, w_sessions)).2.1
                   (AcademicSession_save (s_plain, w_sessions)).2.2 12%N _ _) _).
  - vm_compute; reflexivity.
  - vm_compute. discriminate.
  - reflexivity.
Defined.

(** X6. The UPDATE and the save of [AcademicSession.save] are two writes
    with nothing to undo the first: when the session is current, the UPDATE
    is served and the call then raises, no stored session is current any
    more, and the session of the call is not stored as current either. *)
Theorem AcademicSession_save_failure_clears s w e s' w' :
  is_current s = true →
  serves w = true →
  AcademicSession_save (s, w) = (Raise e, (s', w')) →
  ∀ k row, objects w' !! k = Some row → is_current row = false.
Proof.
  intros Hc Hserves. unfold AcademicSession_save, bind, get_self. simpl.
  rewrite Hc. unfold objects_filter_update, bind.
  destruct (execute_served s w Hserves) as [b ->]. simpl.
  intros Hsave. apply StatusModel_save_spec in Hsave as (_ & _ & _ & Hr).
  simpl in Hr. intros k row. rewrite Hr. apply cleared_lookup.
Qed.

Lemma AcademicSession_save_failure_clears_witness :
  (AcademicSession_save (s0, w_sessions_half)).1
  = Raise (DatabaseError "connection lost") ∧
  is_current <$> objects (AcademicSession_save (s0, w_sessions_half)).2.2
  = {[ 12%N := false ]} ∧
  is_current (set_is_current false s1) = false.
Proof.
  split; [vm_compute; reflexivity|]. split; [vm_compute; reflexivity|].
  apply (AcademicSession_save_failure_clears s0 w_sessions_half
           (DatabaseError "connection lost")
           (AcademicSession_save (s0, w_sessions_half)).2.1
           (AcademicSession_save (s0, w_sessions_half)).2.2
           eq_refl eq_refl ltac:(vm_compute; reflexivity)
           12%N (set_is_current false s1)).
  vm_compute; reflexivity.
Defined.

Lemma date_leb_ltb (a b : date) : date_leb a b = negb (date_ltb b a).
Proof. unfold date_leb, date_ltb. destruct a, b; simpl. lia. Qed.

Lemma clean_Valid_iff s :
  clean s = Valid ↔
  end_date_after_start_date s = true ∧ term_number_within_semesters_range s = true.
Proof.
  unfold clean, end_date_after_start_date, term_number_within_semesters_range.
  rewrite date_leb_ltb.
  destruct (date_ltb (start_date s) (end_date s)); simpl.
  - destruct (term_number s) as [t|]; [|by split].
    destruct (Z.ltb_spec (number_of_semesters s) t);
      destruct (Z.leb_spec t (number_of_semesters s)); try lia; split; try done;
      by intros [_ ?].
  - split; [done | by intros [? _]].
Qed.

(** X7. [AcademicSession.clean] returns exactly on the sessions that meet
    the two check constraints declared in [Meta]; when the dates are wrong
    it is the date message that is raised, whatever the term number. *)
Theorem clean_agrees_with_constraints s :
  (clean s = Valid ↔
   end_date_after_start_date s = true ∧ term_number_within_semesters_range s = true) ∧
  (end_date_after_start_date s = false →
   clean s = ValidationError "End date must be after start date.").
Proof.
  split; [apply clean_Valid_iff|].
  unfold clean, end_date_after_start_date. rewrite date_leb_ltb.
  by intros ->.
Qed.

Lemma clean_agrees_with_constraints_witness :
  clean s0 = Valid ∧
  clean (mk_AcademicSession (fresh_core 11%N) "2024/2025" 2 (Some 3)
                            (mk_date 2024 9 1) (mk_date 2024 9 1) true)
  = ValidationError "End date must be after start date.".
Proof.
  split.
  - apply (proj1 (clean_agrees_with_constraints s0)). split; reflexivity.
  - apply (proj2 (clean_agrees_with_constraints _)). reflexivity.
Defined.

(** X8. A session that [clean] accepts, with at most three semesters and a
    term number of at least one, is displayed under the name of a semester,
    not as a full session. *)
Theorem semester_name_of_clean_session s t :
  clean s = Valid →
  number_of_semesters s ≤ 3 →
  term_number s = Some t → 1 ≤ t →
  semester_name s ∈ ["First Semester"; "Second Semester"; "Third Semester"] ∧
  semester_name s ≠ "Full Session".
Proof.
  intros Hclean Hn Ht Hlow.
  apply clean_Valid_iff in Hclean as [_ Hrange].
  unfold term_number_within_semesters_range in Hrange. rewrite Ht in Hrange.
  apply Z.leb_le in Hrange.
  assert (t = 1 ∨ t = 2 ∨ t = 3) as [-> | [-> | ->]] by lia;
    unfold semester_name; rewrite Ht; split; try discriminate;
    repeat first [apply list_elem_of_here | apply list_elem_of_further].
Qed.

Lemma semester_name_of_clean_session_witness :
  semester_name s_plain = "Second Semester" ∧ semester_name s_plain ≠ "Full Session".
Proof.
  split; [reflexivity|].
  apply (proj2 (semester_name_of_clean_session s_plain 2
                  eq_refl ltac:(vm_compute; discriminate) eq_refl
                  ltac:(vm_compute; discriminate))).
Defined.

(** ** SequenceGenerator.get_next_number, further *)

Lemma zeros_length k : String.length (zeros k) = k.
Proof. induction k; simpl; congruence. Qed.

(** [zfill] pads up to the width and never cuts. *)
Lemma zfill_length (str : string) (w : Z) :
  Z.of_nat (String.length (zfill str w)) = Z.max (Z.of_nat (String.length str)) w.
Proof.
  unfold zfill. destruct (Z.leb_spec w (Z.of_nat (String.length str))) as [Hle|Hlt];
    [lia|].
  assert (Z.of_nat (String.length (zeros (Z.to_nat (w - Z.of_nat (String.length str)))
                                     +:+ str)) = w) as Hfill.
  { rewrite string_length_app, zeros_length. lia. }
  destruct str as [|c rest]; [|destruct (Ascii.eqb c "+" || Ascii.eqb c "-")%bool].
  - rewrite zeros_length. simpl in *. lia.
  - rewrite string_length_app in Hfill. simpl in *.
    rewrite string_length_app. lia.
  - lia.
Qed.

(** X9. The string that a call returns is as long as the prefix, the suffix
    and the wider of the padding and the numeral of the new number: a number
    with more digits than the padding is returned whole. *)
Theorem get_next_number_length g w str g' w' :
  get_next_number (g, w) = (Ok str, (g', w')) →
  Z.of_nat (String.length str) =
    Z.of_nat (String.length (prefix g))
    + Z.max (Z.of_nat (String.length (str_int (last_number g + 1)))) (padding g)
    + Z.of_nat (String.length (suffix g)).
Proof.
  intros Hcall. pose proof (get_next_number_result g w str) as Hstr.
  rewrite Hcall in Hstr. specialize (Hstr eq_refl). rewrite Hstr.
  rewrite !string_length_app, !Nat2Z.inj_add, zfill_length. lia.
Qed.

Lemma get_next_number_length_witness :
  ∃ str, (get_next_number (g_stu, w0)).1 = Ok str ∧
         Z.of_nat (String.length str) = 4 + 4 + 0.
Proof.
  exists "STU-0006". split; [vm_compute; reflexivity|].
  exact (get_next_number_length g_stu w0 "STU-0006"
           (get_next_number (g_stu, w0)).2.1 (get_next_number (g_stu, w0)).2.2
           ltac:(vm_compute; reflexivity)).
Defined.

(** X10. Every call of a run on one instance advances its [last_number] by
    one, whether it returns or raises; so the call at position [i], when it
    returns, returns the number [last_number + i + 1]: a number taken by a
    call that raised is passed over, not issued again. *)
Theorem calls_issue_number g ws (i : nat) r gi :
  calls g ws !! i = Some (r, gi) →
  last_number gi = last_number g + Z.of_nat i + 1 ∧
  ∀ str, r = Ok str →
    str = prefix g +:+ zfill (str_int (last_number g + Z.of_nat i + 1)) (padding g)
          +:+ suffix g.
Proof.
  intros Hi. apply calls_lookup in Hi as (Hn & _ & _ & _ & Hr).
  split; [exact Hn|]. intros str Hstr. rewrite <- Hn. by apply Hr.
Qed.

Lemma calls_issue_number_witness :
  (calls g_fresh [w_down; w0]).*1
  = [Raise (DatabaseError "connection lost"); Ok "000002"] ∧
  last_number (get_next_number ((get_next_number (g_fresh, w_down)).2.1, w0)).2.1
  = last_number g_fresh + Z.of_nat 1 + 1.
Proof.
  split; [vm_compute; reflexivity|].
  refine (proj1 (calls_issue_number g_fresh [w_down; w0] 1 (Ok "000002")
                   (get_next_number ((get_next_number (g_fresh, w_down)).2.1, w0)).2.1
                   _)).
  vm_compute; reflexivity.
Defined.

(** X11. A call writes no row but the one of its own counter: the rows
    stored under the other primary keys are as they were, whatever the
    outcome. *)
Theorem get_next_number_other_rows g w r g' w' k :
  get_next_number (g, w) = (r, (g', w')) →
  k ≠ id (core g) →
  objects w' !! k = objects w !! k.
Proof.
  rewrite get_next_number_unfold. intros Hcall Hk.
  destruct (StatusModel_save _) as [r1 [g1 w1]] eqn:E.
  apply StatusModel_save_spec in E as (_ & _ & _ & Hr).
  destruct r1 as [[]|e]; simpl in Hcall; injection Hcall as _ _ <-.
  - destruct Hr as [-> _]. by rewrite lookup_insert_ne.
  - by rewrite Hr.
Qed.

Lemma get_next_number_other_rows_witness :
  objects (get_next_number (g_fresh, w_2024)).2.2 !! 9%N = Some g_yearly.
Proof.
  refine (eq_trans
            (get_next_number_other_rows g_fresh w_2024
               (get_next_number (g_fresh, w_2024)).1
               (get_next_number (g_fresh, w_2024)).2.1
               (get_next_number (g_fresh, w_2024)).2.2 9%N _ _) _).
  - vm_compute; reflexivity.
  - vm_compute. discriminate.
  - reflexivity.
Defined.

(** ** AddressModel.full_address *)

Lemma string_app_nonempty (a b : string) : a ≠ "" → a +:+ b ≠ "".
Proof. by destruct a. Qed.

Lemma join_empty_iff sep (ps : list string) :
  Forall (λ p, p ≠ "") ps → join sep ps = "" ↔ ps = [].
Proof.
  intros Hps. split; [|by intros ->].
  destruct Hps as [|p ps Hp _]; [done|]. simpl.
  destruct ps; [done|]. intros Hj. by apply string_app_nonempty in Hj.
Qed.

Lemma truthy_Forall (ps : list string) : Forall (λ p, p ≠ "") (truthy ps).
Proof. unfold truthy. apply Forall_forall. by intros p [? _]%list_elem_of_filter. Qed.

Lemma truthy_nil_iff (ps : list string) : truthy ps = [] ↔ Forall (λ p, p = "") ps.
Proof.
  unfold truthy. induction ps as [|p ps IH]; [by split|].
  rewrite filter_cons. case_decide as Hp.
  - split; [done|]. by intros [? _]%Forall_cons.
  - rewrite IH, Forall_cons. by intuition.
Qed.

(** X12. The full address is the empty string exactly when the six fields
    are all blank. *)
Theorem full_address_empty_iff a :
  full_address a = "" ↔
  address_line_1 a = "" ∧ address_line_2 a = "" ∧ city a = "" ∧
  state a = "" ∧ postal_code a = "" ∧ country a = "".
Proof.
  unfold full_address.
  rewrite join_empty_iff by apply truthy_Forall.
  rewrite truthy_nil_iff, !Forall_cons, Forall_nil. by intuition.
Qed.

Lemma join_length sep (ps : list string) :
  String.length (join sep ps)
  = (total_length ps + String.length sep * (length ps - 1))%nat.
Proof.
  induction ps as [|p ps IH]; [simpl; lia|].
  destruct ps as [|q ps].
  - simpl. lia.
  - change (join sep (p :: q :: ps)) with (p +:+ sep +:+ join sep (q :: ps)).
    rewrite !string_length_app, IH. simpl. lia.
Qed.

Lemma truthy_total_length (ps : list string) :
  total_length (truthy ps) = total_length ps.
Proof.
  unfold truthy. induction ps as [|p ps IH]; [done|].
  rewrite filter_cons. case_decide as Hp; simpl; rewrite IH; [done|].
  by rewrite Hp.
Qed.

(** X13. The full address has the characters of the six fields and one
    two-character separator between two fields that are not blank, none for
    a blank field and none at either end. *)
Theorem full_address_length a :
  let parts := [address_line_1 a; address_line_2 a; city a; state a;
                postal_code a; country a] in
  String.length (full_address a)
  = (total_length parts + 2 * (length (truthy parts) - 1))%nat.
Proof.
  intros parts. unfold full_address. fold parts.
  by rewrite join_length, truthy_total_length.
Qed.

(** ** FileAttachment.file_size_human *)

Lemma round_half_even_near (n d : Z) :
  0 < d → 2 * Z.abs (n - d * round_half_even n d) ≤ d.
Proof.
  intros Hd. unfold round_half_even.
  pose proof (Z.div_mod n d ltac:(lia)) as Hn.
  pose proof (Z.mod_pos_bound n d Hd) as Hr.
  destruct ((d <? 2 * (n mod d)) || ((2 * (n mod d) =? d) && Z.odd (n / d)))%bool eqn:E.
  - assert (d ≤ 2 * (n mod d)) by lia. nia.
  - assert (2 * (n mod d) ≤ d) by lia. nia.
Qed.

Lemma round_half_even_mono (n n' d : Z) :
  0 < d → n ≤ n' → round_half_even n d ≤ round_half_even n' d.
Proof.
  intros Hd Hle.
  pose proof (round_half_even_near n d Hd) as H1.
  pose proof (round_half_even_near n' d Hd) as H2.
  destruct (Z.le_gt_cases (round_half_even n d) (round_half_even n' d)) as [|Hgt];
    [done|].
  assert (n = n') as -> by nia. lia.
Qed.

Lemma file_size_human_KB_MB_cases f :
  (1024 ≤ fa_size f < 1024 * 1024 →
   file_size_human f = format_1f (fa_size f) 1024 +:+ " KB" ∧
   10 ≤ tenths (fa_size f) 1024 ≤ 10240 ∧
   Z.abs (10 * fa_size f - 1024 * tenths (fa_size f) 1024) ≤ 512) ∧
  (1024 * 1024 ≤ fa_size f < 1024 * 1024 * 1024 →
   file_size_human f = format_1f (fa_size f) (1024 * 1024) +:+ " MB" ∧
   10 ≤ tenths (fa_size f) (1024 * 1024) ≤ 10240 ∧
   Z.abs (10 * fa_size f - 1024 * 1024 * tenths (fa_size f) (1024 * 1024)) ≤ 524288).
Proof.
  unfold file_size_human. split; intros Hsize.
  - pose proof (round_half_even_near (10 * fa_size f) 1024 ltac:(lia)) as Hnear.
    fold (tenths (fa_size f) 1024) in Hnear.
    destruct (Z.ltb_spec (fa_size f) 1024); [lia|].
    destruct (Z.ltb_spec (fa_size f) (1024 * 1024)); [|lia].
    split; [done|]. lia.
  - pose proof (round_half_even_near (10 * fa_size f) (1024 * 1024) ltac:(lia)) as Hnear.
    fold (tenths (fa_size f) (1024 * 1024)) in Hnear.
    destruct (Z.ltb_spec (fa_size f) 1024); [lia|].
    destruct (Z.ltb_spec (fa_size f) (1024 * 1024)); [lia|].
    destruct (Z.ltb_spec (fa_size f) (1024 * 1024 * 1024)); [|lia].
    split; [done|]. lia.
Qed.

(** X14. Between 1 KiB and 1 MiB the size is shown in KB, with one decimal:
    the number shown is within half a tenth of [size / 1024] and lies
    between 1.0 and 1024.0; between 1 MiB and 1 GiB the same holds in MB. *)
Theorem file_size_human_KB_MB f :
  (1024 ≤ fa_size f < 1024 * 1024 →
   file_size_human f = format_1f (fa_size f) 1024 +:+ " KB" ∧
   10 ≤ tenths (fa_size f) 1024 ≤ 10240 ∧
   Z.abs (10 * fa_size f - 1024 * tenths (fa_size f) 1024) ≤ 512) ∧
  (1024 * 1024 ≤ fa_size f < 1024 * 1024 * 1024 →
   file_size_human f = format_1f (fa_size f) (1024 * 1024) +:+ " MB" ∧
   10 ≤ tenths (fa_size f) (1024 * 1024) ≤ 10240 ∧
   Z.abs (10 * fa_size f - 1024 * 1024 * tenths (fa_size f) (1024 * 1024)) ≤ 524288).
Proof. exact (file_size_human_KB_MB_cases f). Qed.

Lemma file_size_human_KB_MB_witness :
  file_size_human (fa_with_size 1280) = "1.2 KB" ∧
  10 ≤ tenths 1280 1024 ≤ 10240.
Proof.
  split; [vm_compute; reflexivity|].
  exact (proj1 (proj2 (proj1 (file_size_human_KB_MB (fa_with_size 1280))
                         ltac:(simpl; lia)))).
Defined.

(** X15. The sizes from 1048525 bytes up to one byte below 1 MiB are shown
    as "1024.0 KB", and those from 1073689396 bytes up to one byte below
    1 GiB as "1024.0 MB": the unit is chosen on the size, before the
    rounding. *)
Theorem file_size_human_rounds_to_1024 f :
  (1048525 ≤ fa_size f < 1024 * 1024 → file_size_human f = "1024.0 KB") ∧
  (1073689396 ≤ fa_size f < 1024 * 1024 * 1024 → file_size_human f = "1024.0 MB").
Proof.
  split; intros Hsize.
  - destruct (proj1 (file_size_human_KB_MB_cases f) ltac:(lia)) as (-> & Ht).
    assert (tenths (fa_size f) 1024 = 10240) as Heq by lia.
    unfold format_1f. rewrite Heq. reflexivity.
  - destruct (proj2 (file_size_human_KB_MB_cases f) ltac:(lia)) as (-> & Ht).
    assert (tenths (fa_size f) (1024 * 1024) = 10240) as Heq by lia.
    unfold format_1f. rewrite Heq. reflexivity.
Qed.

Lemma file_size_human_rounds_to_1024_witness :
  file_size_human (fa_with_size 1048575) = "1024.0 KB" ∧
  file_size_human (fa_with_size 1048576) = "1.0 MB".
Proof.
  split; [|vm_compute; reflexivity].
  apply (proj1 (file_size_human_rounds_to_1024 (fa_with_size 1048575))).
  simpl. lia.
Defined.

(** X16. Within one unit a larger file is never shown with a smaller
    number: the number of tenths shown grows with the size, in KB and in
    MB. *)
Theorem file_size_human_monotone f f' :
  fa_size f ≤ fa_size f' →
  (1024 ≤ fa_size f → fa_size f' < 1024 * 1024 →
   file_size_human f = format_1f (fa_size f) 1024 +:+ " KB" ∧
   file_size_human f' = format_1f (fa_size f') 1024 +:+ " KB" ∧
   tenths (fa_size f) 1024 ≤ tenths (fa_size f') 1024) ∧
  (1024 * 1024 ≤ fa_size f → fa_size f' < 1024 * 1024 * 1024 →
   file_size_human f = format_1f (fa_size f) (1024 * 1024) +:+ " MB" ∧
   file_size_human f' = format_1f (fa_size f') (1024 * 1024) +:+ " MB" ∧
   tenths (fa_size f) (1024 * 1024) ≤ tenths (fa_size f') (1024 * 1024)).
Proof.
  intros Hle. split; intros Hlo Hhi.
  - destruct (proj1 (file_size_human_KB_MB_cases f) ltac:(lia)) as (-> & _).
    destruct (proj1 (file_size_human_KB_MB_cases f') ltac:(lia)) as (-> & _).
    split; [done|]. split; [done|].
    unfold tenths. apply round_half_even_mono; lia.
  - destruct (proj2 (file_size_human_KB_MB_cases f) ltac:(lia)) as (-> & _).
    destruct (proj2 (file_size_human_KB_MB_cases f') ltac:(lia)) as (-> & _).
    split; [done|]. split; [done|].
    unfold tenths. apply round_half_even_mono; lia.
Qed.

Lemma file_size_human_monotone_witness :
  tenths 1280 1024 ≤ tenths 1360 1024 ∧
  file_size_human (fa_with_size 1280) = "1.2 KB" ∧
  file_size_human (fa_with_size 1360) = "1.3 KB".
Proof.
  split; [|split; vm_compute; reflexivity].
  exact (proj2 (proj2 (proj1 (file_size_human_monotone (fa_with_size 1280)
                                (fa_with_size 1360) ltac:(simpl; lia))
                         ltac:(simpl; lia) ltac:(simpl; lia)))).
Defined.

(** ** SoftDeleteModel.delete, when the save raises *)

(** X17. When the save of a [delete] raises (the save being
    [StatusModel.save]), the table is as it was before the call, so a stored
    row is not marked deleted; the instance is: the flag and the stamp were
    assigned before the save. *)
Theorem delete_failed_save {A : Type} `{Model A} (s s' : A) (w w' : World A) e :
  delete StatusModel_save (s, w) = (Raise e, (s', w')) →
  objects w' = objects w ∧
  is_deleted (core s') = true ∧
  deleted_at (core s') = Some (clock w (reads w)).
Proof.
  rewrite delete_unfold. intros Hsave.
  apply StatusModel_save_spec in Hsave as (_ & (_ & _ & Hdel & Hat) & _ & Hobj).
  rewrite core_with_core in Hdel, Hat. simpl in *. by rewrite Hdel, Hat.
Qed.

Lemma delete_failed_save_witness :
  (delete StatusModel_save (n_stored, w_down)).1
  = Raise (DatabaseError "connection lost") ∧
  is_deleted (core (delete StatusModel_save (n_stored, w_down)).2.1) = true ∧
  objects (delete StatusModel_save (n_stored, w_down)).2.2 = ∅.
Proof.
  destruct (delete_failed_save n_stored
              (delete StatusModel_save (n_stored, w_down)).2.1 w_down
              (delete StatusModel_save (n_stored, w_down)).2.2
              (DatabaseError "connection lost")) as (Hobj & Hdel & _);
    [vm_compute; reflexivity|].
  split; [vm_compute; reflexivity|]. split; [exact Hdel | exact Hobj].
Defined.

(** ** The smoke test of tests.py *)

(** X18. As the smoke test checks on one notification: after a
    [mark_as_read] that returns, [refresh_from_db] (when its query is served)
    loads the instance back as the call left it, marked as read. *)
Theorem mark_as_read_then_refresh n w n1 w1 :
  mark_as_read (n, w) = (Ok tt, (n1, w1)) →
  serves w1 = true →
  (refresh_from_db (n1, w1)).1 = Ok tt ∧
  (refresh_from_db (n1, w1)).2.1 = n1 ∧
  is_read (refresh_from_db (n1, w1)).2.1 = true.
Proof.
  rewrite mark_as_read_unfold. intros Hsave Hserves.
  apply StatusModel_save_spec in Hsave as (Hn1 & (Hid & _) & _ & Hobj & _).
  change (refresh_from_db (n1, w1)) with
    (match objects_get (id (core n1)) (n1, w1) with
     | (Ok row, st') => modify_self (λ _, row) st'
     | (Raise e, st') => (Raise e, st')
     end).
  destruct (objects_get_served (id (core n1)) n1 w1 Hserves) as [b ->].
  rewrite Hobj, Hid, lookup_insert_eq. simpl.
  split; [done|]. split; [done|]. by rewrite Hn1.
Qed.

Lemma mark_as_read_then_refresh_witness :
  is_read n0 = false ∧
  is_read (refresh_from_db (mark_as_read (n0, w0)).2).2.1 = true.
Proof.
  split; [reflexivity|].
  exact (proj2 (proj2 (mark_as_read_then_refresh n0 w0
                         (mark_as_read (n0, w0)).2.1 (mark_as_read (n0, w0)).2.2
                         ltac:(vm_compute; reflexivity) eq_refl))).
Defined.

(** The sizes below 1024, checked one by one. *)
Lemma split_bytes_checked :
  forallb (λ n, bool_decide (split (str_int n +:+ " B") = [str_int n; "B"]))
          (seqZ 0 1024) = true.
Proof. vm_compute. reflexivity. Qed.

(** X19. As the smoke test checks on a file of 11 bytes: for every size
    from 0 to 1023, [file_size_human] is the numeral of the size, a space and
    the unit "B", so that the second word of the string is "B". *)
Theorem file_size_human_bytes f :
  0 ≤ fa_size f < 1024 →
  split (file_size_human f) = [str_int (fa_size f); "B"] ∧
  split (file_size_human f) !! 1%nat = Some "B".
Proof.
  intros Hsize. unfold file_size_human.
  destruct (Z.ltb_spec (fa_size f) 1024); [|lia].
  pose proof split_bytes_checked as Hall.
  rewrite forallb_forall in Hall.
  assert (In (fa_size f) (seqZ 0 1024)) as Hin.
  { apply list_elem_of_In, elem_of_seqZ. lia. }
  apply Hall in Hin. apply bool_decide_eq_true in Hin. by rewrite Hin.
Qed.

Lemma file_size_human_bytes_witness :
  file_size_human fa0 = "11 B" ∧ split (file_size_human fa0) !! 1%nat = Some "B".
Proof.
  split; [reflexivity|].
  apply (proj2 (file_size_human_bytes fa0 ltac:(simpl; lia))).
Defined.
